(** * odmantic/engine.py: the query/save engine of the ODM layer

    A shallow embedding of [AIOCursor] and [AIOEngine]
    (src/odmantic/engine.py) and the properties of the pipeline builder,
    the lazy result cursor and the recursive cascading saver. *)

From Stdlib Require Import ZArith Lia.
From stdpp Require Import gmap strings list.

Set Warnings "-register-all".
Local Open Scope string_scope.
Local Open Scope list_scope.
Local Open Scope Z_scope.

(** ** Data model *)

(** Python values as they travel to and from the driver: pipeline stages,
    queries, raw documents and write documents are dicts, lists, strings and
    integers.  A dict keeps its insertion order, hence the association
    list. *)
Inductive Value : Type :=
| VNone
| VBool (b : bool)
| VInt (z : Z)
| VStr (s : string)
| VList (items : list Value)
| VDict (entries : list (string * Value)).

(** Modelled from the spec: the model classes of odmantic/model.py and the
    reference descriptors of odmantic/reference.py, which are not part of
    the sources at hand.  Per model type: the declared collection name, the
    declared primary-key field name, and the reference fields in declaration
    order, each with its target model type and its storage key name.
    [__references__] pairs each name of the source's [model.__references__]
    with the descriptor [model.__odm_fields__[ref_field_name]].  A model type
    is a finite tree of references: cycles between model types are out of
    the model. *)
Inductive Model : Type :=
  MkModel {
    __collection__ : string;
    __primary_key__ : string;
    __references__ : list (string * ODMReference) }
with ODMReference : Type :=
  MkODMReference {
    model : Model;
    key_name : string }.

(** Modelled from the spec: the instances of odmantic/model.py.  A model
    instance has its class, its plain attributes (the primary key among
    them), one sub-instance per reference field (so that
    [getattr(instance, ref_field_name)] is the second component of the entry
    named [ref_field_name]), and the set of modified field names.  The
    engine never writes to a sub-instance, so that an instance is given with
    its sub-instances as a tree. *)
Inductive Instance : Type :=
  MkInstance {
    type_of : Model;
    attrs : list (string * Value);
    sub_instances : list (string * Instance);
    __fields_modified__ : gset string }.

(** [object.__setattr__(instance, "__fields_modified__", set())] *)
Definition clear_fields_modified (instance : Instance) : Instance :=
  MkInstance (type_of instance) (attrs instance) (sub_instances instance) ∅.

(** [getattr(instance, name)] on a plain attribute; [None] stands for the
    [AttributeError] Python raises when the attribute does not exist. *)
Fixpoint assoc {A : Type} (name : string) (entries : list (string * A)) : option A :=
  match entries with
  | [] => None
  | (k, v) :: rest => if String.eqb k name then Some v else assoc name rest
  end.

Definition getattr (instance : Instance) (name : string) : option Value :=
  assoc name (attrs instance).

(** ** Exceptions and results *)

(** The exceptions that cross the engine.  [PyMongoDuplicateKeyError] is the
    driver's, with its [details] dict; [DuplicatePrimaryKeyError] (of
    odmantic/exceptions.py) carries the instance it was built with. *)
Inductive PyErr : Type :=
| TypeError (msg : string)
| AttributeError (name : string)
| KeyError (key : string)
| IndexError
| ValidationError (raw_doc : Value)
| PyMongoDuplicateKeyError (details : list (string * Value))
| PyMongoError (msg : string)
| DuplicatePrimaryKeyError (instance : Instance).

Inductive Result (A : Type) : Type :=
| Ok (a : A)
| Raise (e : PyErr).
Arguments Ok {A} a.
Arguments Raise {A} e.

(** Python's [needle in haystack] on strings. *)
Fixpoint str_contains (haystack needle : string) : bool :=
  String.prefix needle haystack ||
  match haystack with
  | EmptyString => false
  | String _ rest => str_contains rest needle
  end.

Definition value_is_str (key : string) (v : Value) : bool :=
  match v with
  | VStr s => String.eqb s key
  | _ => false
  end.

(** Python's [key in container]: key membership for a dict, element
    membership for a list, substring for a string. *)
Definition py_in (key : string) (container : Value) : Result bool :=
  match container with
  | VDict entries => Ok (existsb (fun kv => String.eqb (fst kv) key) entries)
  | VList items => Ok (existsb (value_is_str key) items)
  | VStr s => Ok (str_contains s key)
  | _ => Raise (TypeError "argument is not iterable")
  end.

(** ** The driver: sessions, transactions and writes *)

Definition Session : Type := nat.

(** One [collection.update_one(filter, update, upsert=..,
    bypass_document_validation=.., session=..)] call.  The driver attaches an
    operation to a transaction only through its [session] argument; a call
    without it is an ordinary write that takes effect at once. *)
Record UpdateCall : Type :=
  MkUpdateCall {
    uc_collection : string;
    uc_filter : Value;
    uc_update : Value;
    uc_upsert : bool;
    uc_bypass_document_validation : bool;
    uc_session : option Session }.

(** The store as the engine observes it: the writes that are persisted, the
    writes staged in open transactions, and the number of sessions handed
    out. *)
Record Store : Type :=
  MkStore {
    persisted : list UpdateCall;
    staged : list (Session * UpdateCall);
    sessions_started : nat }.

Definition empty_store : Store := MkStore [] [] 0.

(** [client.start_session()] *)
Definition start_session (st : Store) : Store * Session :=
  (MkStore (persisted st) (staged st) (S (sessions_started st)),
   sessions_started st).

(** [s.start_transaction()] entered: nothing is staged yet for [s]. *)
Definition start_transaction (st : Store) (s : Session) : Store :=
  MkStore (persisted st)
          (filter (fun sc => fst sc ≠ s) (staged st))
          (sessions_started st).

(** Clean exit of the transaction scope: the writes staged for [s] become
    persisted, in the order they were issued. *)
Definition commit_transaction (st : Store) (s : Session) : Store :=
  MkStore (persisted st ++ map snd (filter (fun sc => fst sc = s) (staged st)))
          (filter (fun sc => fst sc ≠ s) (staged st))
          (sessions_started st).

(** Exit of the transaction scope through an exception: the writes staged
    for [s] are dropped. *)
Definition abort_transaction (st : Store) (s : Session) : Store :=
  MkStore (persisted st)
          (filter (fun sc => fst sc ≠ s) (staged st))
          (sessions_started st).

(** ** Coroutines of the saver *)

(** What a [_save] coroutine does once [gather] has returned. *)
Inductive Step : Type :=
| StepReturn
| StepUpdateOne (call : UpdateCall)
| StepRaise (e : PyErr).

(** A [_save] coroutine: [await gather( *save_tasks)], then its own step. *)
Inductive Coro : Type :=
| AwaitGather (save_tasks : list Coro) (then_ : Step).

(** What the event loop observes of a run, in the order it happens. *)
Inductive Event : Type :=
| EvUpdateOne (call : UpdateCall)
| EvRaise (e : PyErr).

Definition step_events (k : Step) : list Event :=
  match k with
  | StepReturn => []
  | StepUpdateOne call => [EvUpdateOne call]
  | StepRaise e => [EvRaise e]
  end.

(** [interleaving ls l]: [l] merges the sequences [ls], keeping the order
    inside each of them. *)
Inductive interleaving {A : Type} : list (list A) -> list A -> Prop :=
| interleaving_done ls :
    Forall (fun l => l = []) ls -> interleaving ls []
| interleaving_step pre x t post rest :
    interleaving (pre ++ t :: post) rest ->
    interleaving (pre ++ (x :: t) :: post) (x :: rest).

(** The runs of a coroutine under [asyncio.gather]: the gathered tasks
    proceed concurrently, their events interleave in any order, and the
    coroutine's own step comes after all of them.  A run lists the events in
    the order they are due; carrying it out ([play] below) stops at the
    first event that fails. *)
Inductive schedule : Coro -> list Event -> Prop :=
| schedule_gather save_tasks then_ traces merged :
    Forall2 schedule save_tasks traces ->
    interleaving traces merged ->
    schedule (AwaitGather save_tasks then_) (merged ++ step_events then_).

(** The run in which the gathered tasks complete in the order they were
    created. *)
Fixpoint in_order (c : Coro) : list Event :=
  match c with
  | AwaitGather save_tasks then_ =>
      (fix each (tasks : list Coro) : list Event :=
         match tasks with
         | [] => []
         | t :: rest => in_order t ++ each rest
         end) save_tasks ++ step_events then_
  end.

(** ** Collaborators *)

(** The model layer, odmantic/model.py: [Model.parse_doc] and
    [Model.doc(include=..)]. *)
Class ModelLayer : Type := {
  parse_doc : Model -> Value -> Result Instance;
  doc : Instance -> gset string -> Value }.

(** The storage driver: what [collection.aggregate(pipeline)] streams back,
    and whether the server rejects a write ([None]: accepted). *)
Class Driver : Type := {
  aggregate : string -> list Value -> list Value;
  server_rejects : Store -> UpdateCall -> option PyErr }.

(** The event loop picks the order in which the events of a coroutine
    happen. *)
Class EventLoop : Type := {
  run_order : Coro -> list Event }.

(** An event loop is faithful to [gather] when what it picks is a run. *)
Definition faithful (loop : EventLoop) : Prop :=
  forall c, schedule c (@run_order loop c).

(** The server's query language: whether a stored document matches a
    filter. *)
Class QueryLanguage : Type := {
  matches : Value -> Value -> bool }.

(** ** The lazy result cursor *)

(** The driver's cursor over the answer to one aggregation request: the
    request it was created for, the raw documents not handed out yet, and
    how many documents it has handed out.  It is a single-pass stream. *)
Record MotorCursor : Type :=
  MkMotorCursor {
    mc_collection : string;
    mc_pipeline : list Value;
    mc_pending : list Value;
    mc_fetched : nat }.

(** [motor_cursor.to_list(length=None)]: everything that is left. *)
Definition to_list (mc : MotorCursor) : list Value * MotorCursor :=
  (mc_pending mc,
   MkMotorCursor (mc_collection mc) (mc_pipeline mc) []
                 (mc_fetched mc + length (mc_pending mc))%nat).

(** One step of [async for raw_doc in motor_cursor]. *)
Definition motor_next (mc : MotorCursor) : option Value * MotorCursor :=
  match mc_pending mc with
  | [] => (None, mc)
  | raw_doc :: rest =>
      (Some raw_doc,
       MkMotorCursor (mc_collection mc) (mc_pipeline mc) rest
                     (S (mc_fetched mc)))
  end.

Module AIOCursor.

Record t : Type :=
  Make {
    _model : Model;
    _motor_cursor : MotorCursor;
    _results : option (list Instance) }.

Section WithModelLayer.
Context `{ModelLayer}.

(** [AIOCursor._parse_document] *)
Definition _parse_document (self : t) (raw_doc : Value) : Result Instance :=
  match parse_doc (_model self) raw_doc with
  | Raise e => Raise e
  | Ok instance => Ok (clear_fields_modified instance)
  end.

(** The [for raw_doc in raw_docs] loop of [__await__]. *)
Fixpoint parse_all (self : t) (raw_docs : list Value) (instances : list Instance)
    : Result (list Instance) :=
  match raw_docs with
  | [] => Ok instances
  | raw_doc :: rest =>
      match _parse_document self raw_doc with
      | Raise e => Raise e
      | Ok instance => parse_all self rest (instances ++ [instance])
      end
  end.

(** [AIOCursor.__await__]: the cursor after the call and what the call
    returns or raises. *)
Definition __await__ (self : t) : t * Result (list Instance) :=
  match _results self with
  | Some results => (self, Ok results)
  | None =>
      let '(raw_docs, motor_cursor) := to_list (_motor_cursor self) in
      let self := Make (_model self) motor_cursor None in
      match parse_all self raw_docs [] with
      | Raise e => (self, Raise e)
      | Ok instances =>
          (Make (_model self) motor_cursor (Some instances), Ok instances)
      end
  end.

(** Where the asynchronous generator [__aiter__] is suspended: not started
    yet, at the [yield res] of the replay loop with the rest of the cache to
    go, at the [yield instance] of the streaming loop with its local
    [results], or finished. *)
Inductive AiterState : Type :=
| Created
| Replaying (rest : list Instance)
| Streaming (results : list Instance)
| Finished.

Inductive Resumed : Type :=
| Yielded (instance : Instance)
| StopAsyncIteration
| Raised (e : PyErr).

Definition replay (self : t) (rest : list Instance) : t * AiterState * Resumed :=
  match rest with
  | [] => (self, Finished, StopAsyncIteration)
  | res :: rest => (self, Replaying rest, Yielded res)
  end.

Definition stream (self : t) (results : list Instance) : t * AiterState * Resumed :=
  match motor_next (_motor_cursor self) with
  | (None, motor_cursor) =>
      (Make (_model self) motor_cursor (Some results), Finished, StopAsyncIteration)
  | (Some raw_doc, motor_cursor) =>
      let self := Make (_model self) motor_cursor (_results self) in
      match _parse_document self raw_doc with
      | Raise e => (self, Finished, Raised e)
      | Ok instance => (self, Streaming (results ++ [instance]), Yielded instance)
      end
  end.

(** Calling [AIOCursor.__aiter__] creates the generator and runs none of
    its body. *)
Definition __aiter__ (self : t) : AiterState := Created.

(** One resumption of the generator of [__aiter__] ([__anext__]). *)
Definition __anext__ (self : t) (g : AiterState) : t * AiterState * Resumed :=
  match g with
  | Created =>
      match _results self with
      | Some results => replay self results
      | None => stream self []
      end
  | Replaying rest => replay self rest
  | Streaming results => stream self results
  | Finished => (self, Finished, StopAsyncIteration)
  end.

(** How an [async for] over the cursor ended: the generator was exhausted,
    it raised, or the consumer left the loop with the generator suspended. *)
Inductive LoopEnd : Type :=
| Exhausted
| Failed (e : PyErr)
| Abandoned.

(** [async for instance in cursor] whose body asks for at most [pulls]
    items: the instances received, and the cursor and generator it leaves
    behind. *)
Fixpoint async_for (pulls : nat) (self : t) (g : AiterState) (seen : list Instance)
    : t * AiterState * list Instance * LoopEnd :=
  match pulls with
  | O => (self, g, seen, Abandoned)
  | S pulls =>
      match __anext__ self g with
      | (self, g, Yielded instance) => async_for pulls self g (seen ++ [instance])
      | (self, g, StopAsyncIteration) => (self, g, seen, Exhausted)
      | (self, g, Raised e) => (self, g, seen, Failed e)
      end
  end.

End WithModelLayer.
End AIOCursor.

(** ** The cascade pipeline builder *)

Module AIOEngine.

(** [{"$lookup": {"from": .., "let": {"foreign_id": ..}, "pipeline": [..],
    "as": ..}}] *)
Definition lookup_stage (from let_foreign_id : string) (pipeline : list Value)
    (as_ : string) : Value :=
  VDict [("$lookup",
          VDict [("from", VStr from);
                 ("let", VDict [("foreign_id", VStr let_foreign_id)]);
                 ("pipeline", VList pipeline);
                 ("as", VStr as_)])].

(** [{"$match": {"$expr": {"$eq": ["$_id", "$$foreign_id"]}}}] *)
Definition match_foreign_id : Value :=
  VDict [("$match",
          VDict [("$expr",
                  VDict [("$eq", VList [VStr "$_id"; VStr "$$foreign_id"])])])].

(** [{"$unwind": f"${ref_field_name}"}] *)
Definition unwind_stage (ref_field_name : string) : Value :=
  VDict [("$unwind", VStr ("$" +:+ ref_field_name))].

(** [AIOEngine._cascade_find_pipeline]: the loop over [model.__references__]
    appends a lookup and an unwind to [pipeline] for each reference field;
    the lookup's sub-pipeline splices the recursive call for the referenced
    model after the [$match] on the foreign id. *)
Fixpoint _cascade_find_pipeline (m : Model) (doc_namespace : string) : list Value :=
  let fix loop (refs : list (string * ODMReference)) (pipeline : list Value)
      : list Value :=
    match refs with
    | [] => pipeline
    | (ref_field_name, odm_reference) :: rest =>
        let pipeline :=
          pipeline ++
          [lookup_stage
             (__collection__ (model odm_reference))
             ("$" +:+ key_name odm_reference)
             (match_foreign_id ::
              _cascade_find_pipeline (model odm_reference)
                (doc_namespace +:+ ref_field_name +:+ "."))
             ref_field_name] in
        let pipeline := pipeline ++ [unwind_stage ref_field_name] in
        loop rest pipeline
    end in
  loop (__references__ m) [].

(** What a caller may pass where a model class is expected. *)
Inductive ModelArg : Type :=
| ModelClass (m : Model)
| NotAModel.

(** [lenient_issubclass(model, Model)] *)
Definition lenient_issubclass_Model (arg : ModelArg) : bool :=
  match arg with
  | ModelClass _ => true
  | NotAModel => false
  end.

(** [AIOEngine._get_collection]: the collection is known by its name. *)
Definition _get_collection (m : Model) : string := __collection__ m.

Section WithCollaborators.
Context `{ModelLayer} `{Driver} `{EventLoop}.

(** [collection.aggregate(pipeline)] *)
Definition collection_aggregate (collection : string) (pipeline : list Value)
    : MotorCursor :=
  MkMotorCursor collection pipeline (aggregate collection pipeline) 0.

(** [AIOEngine.find] *)
Definition find (model_arg : ModelArg) (query : Value) (limit skip : Z)
    : Result AIOCursor.t :=
  match model_arg with
  | NotAModel => Raise (TypeError "Can only call find with a Model class")
  | ModelClass m =>
      let collection := _get_collection m in
      let pipeline := [VDict [("$match", query)]] in
      let pipeline :=
        if 0 <? limit then pipeline ++ [VDict [("$limit", VInt limit)]]
        else pipeline in
      let pipeline :=
        if 0 <? skip then pipeline ++ [VDict [("$skip", VInt skip)]]
        else pipeline in
      let pipeline := pipeline ++ _cascade_find_pipeline m "" in
      let motor_cursor := collection_aggregate collection pipeline in
      Ok (AIOCursor.Make m motor_cursor None)
  end.

(** [AIOEngine.find_one] *)
Definition find_one (model_arg : ModelArg) (query : Value)
    : Result (option Instance) :=
  if negb (lenient_issubclass_Model model_arg) then
    Raise (TypeError "Can only call find_one with a Model class")
  else
    match find model_arg query 1 0 with
    | Raise e => Raise e
    | Ok cursor =>
        match snd (AIOCursor.__await__ cursor) with
        | Raise e => Raise e
        | Ok results =>
            if (length results =? 0)%nat then Ok None
            else match results !! 0%nat with
                 | Some first => Ok (Some first)
                 | None => Raise IndexError
                 end
        end
    end.

(** [AIOEngine._save]: the coroutine it builds for [instance].  The
    [save_tasks] loop creates one [_save] per reference field; after the
    [gather], a write is issued when [__fields_modified__] is not empty.
    The write is keyed by [instance.id] and is given no [session]. *)
Fixpoint _save (instance : Instance) (session : Session) : Coro :=
  let fix loop (refs : list (string * Instance)) (save_tasks : list Coro)
      : list Coro :=
    match refs with
    | [] => save_tasks
    | (ref_field_name, sub_instance) :: rest =>
        loop rest (save_tasks ++ [_save sub_instance session])
    end in
  let save_tasks := loop (sub_instances instance) [] in
  AwaitGather save_tasks
    (if negb (size (__fields_modified__ instance) =? 0)%nat then
       let doc_ :=
         doc instance
             (__fields_modified__ instance ∖
              {[ __primary_key__ (type_of instance) ]}) in
       let collection := _get_collection (type_of instance) in
       match getattr instance "id" with
       | None => StepRaise (AttributeError "id")
       | Some id =>
           StepUpdateOne
             (MkUpdateCall collection
                           (VDict [("_id", id)])
                           (VDict [("$set", doc_)])
                           true true None)
       end
     else StepReturn).

(** [await collection.update_one(..)] as the driver carries it out: a write
    issued with a session is staged in that session's transaction, a write
    issued without one takes effect at once. *)
Definition update_one (st : Store) (call : UpdateCall) : Store * Result unit :=
  match server_rejects st call with
  | Some e => (st, Raise e)
  | None =>
      match uc_session call with
      | Some s =>
          (MkStore (persisted st) (staged st ++ [(s, call)]) (sessions_started st),
           Ok tt)
      | None =>
          (MkStore (persisted st ++ [call]) (staged st) (sessions_started st),
           Ok tt)
      end
  end.

(** Carrying out a run: the first event that fails ends it. *)
Fixpoint play (st : Store) (events : list Event) : Store * Result unit :=
  match events with
  | [] => (st, Ok tt)
  | EvRaise e :: _ => (st, Raise e)
  | EvUpdateOne call :: rest =>
      match update_one st call with
      | (st, Raise e) => (st, Raise e)
      | (st, Ok _) => play st rest
      end
  end.

(** The [except PyMongoDuplicateKeyError as e] clause of [save]. *)
Definition on_duplicate_key (instance : Instance)
    (details : list (string * Value)) : PyErr :=
  match assoc "keyPattern" details with
  | None => KeyError "keyPattern"
  | Some key_pattern =>
      match py_in "_id" key_pattern with
      | Raise e => e
      | Ok true => DuplicatePrimaryKeyError instance
      | Ok false => PyMongoDuplicateKeyError details
      end
  end.

(** [AIOEngine.save]: the store after the call and what it returns or
    raises. *)
Definition save (st : Store) (instance : Instance) : Store * Result Instance :=
  let '(st, s) := start_session st in
  let st := start_transaction st s in
  match play st (run_order (_save instance s)) with
  | (st, Ok _) =>
      let st := commit_transaction st s in
      (st, Ok (clear_fields_modified instance))
  | (st, Raise e) =>
      let st := abort_transaction st s in
      match e with
      | PyMongoDuplicateKeyError details =>
          (st, Raise (on_duplicate_key instance details))
      | _ => (st, Raise e)
      end
  end.

End WithCollaborators.

Section WithDocuments.
Context `{QueryLanguage}.

(** [collection.delete_many(filter)] as the server carries it out on the
    documents it holds, collection by collection: the documents of the
    collection that match the filter go, and [deleted_count] is how many
    they were.  A collection the server does not hold has no document. *)
Definition delete_many (db : gmap string (list Value)) (collection : string)
    (filter_ : Value) : gmap string (list Value) * Z :=
  (alter (List.filter (fun document => negb (matches filter_ document)))
         collection db,
   Z.of_nat (length (List.filter (matches filter_)
                                 (default [] (db !! collection))))).

(** [collection.count_documents(query)] *)
Definition count_documents (db : gmap string (list Value)) (collection : string)
    (query : Value) : Z :=
  Z.of_nat (length (List.filter (matches query)
                                (default [] (db !! collection)))).

(** [AIOEngine.delete]: the documents after the call and what it returns or
    raises. *)
Definition delete (db : gmap string (list Value)) (instance : Instance)
    : gmap string (list Value) * Result Z :=
  let collection := __collection__ (type_of instance) in
  let pk_name := __primary_key__ (type_of instance) in
  match getattr instance pk_name with
  | None => (db, Raise (AttributeError pk_name))
  | Some pk =>
      let '(db, deleted_count) :=
        delete_many db collection (VDict [("_id", pk)]) in
      (db, Ok deleted_count)
  end.

(** [AIOEngine.count] *)
Definition count (db : gmap string (list Value)) (model_arg : ModelArg)
    (query : Value) : Result Z :=
  match model_arg with
  | NotAModel => Raise (TypeError "Can only call count with a Model class")
  | ModelClass m =>
      let collection := __collection__ m in
      Ok (count_documents db collection query)
  end.

End WithDocuments.

End AIOEngine.

(** ** Observations on models and pipelines *)

(** The number of levels of nested references below a model. *)
Fixpoint levels (m : Model) : nat :=
  (fix deepest (refs : list (string * ODMReference)) : nat :=
     match refs with
     | [] => O
     | (_, r) :: rest => Nat.max (S (levels (model r))) (deepest rest)
     end) (__references__ m).

(** The number of reference fields in the whole reference tree of a model. *)
Fixpoint reference_count (m : Model) : nat :=
  (fix total (refs : list (string * ODMReference)) : nat :=
     match refs with
     | [] => O
     | (_, r) :: rest => (S (reference_count (model r)) + total rest)%nat
     end) (__references__ m).

(** How deep the stages under a given key nest inside a value. *)
Fixpoint nesting (key : string) (v : Value) : nat :=
  match v with
  | VList items =>
      (fix deepest (vs : list Value) : nat :=
         match vs with
         | [] => O
         | x :: rest => Nat.max (nesting key x) (deepest rest)
         end) items
  | VDict entries =>
      (fix deepest (kvs : list (string * Value)) : nat :=
         match kvs with
         | [] => O
         | (k, x) :: rest =>
             Nat.max ((if String.eqb k key then 1 else 0) + nesting key x)
                     (deepest rest)
         end) entries
  | _ => O
  end.

(** How many times a key occurs inside a value, at any depth. *)
Fixpoint occurrences (key : string) (v : Value) : nat :=
  match v with
  | VList items =>
      (fix total (vs : list Value) : nat :=
         match vs with
         | [] => O
         | x :: rest => (occurrences key x + total rest)%nat
         end) items
  | VDict entries =>
      (fix total (kvs : list (string * Value)) : nat :=
         match kvs with
         | [] => O
         | (k, x) :: rest =>
             ((if String.eqb k key then 1 else 0) + occurrences key x
              + total rest)%nat
         end) entries
  | _ => O
  end.

(** A stage is a dict; it is a [key] stage when [key] is one of its keys. *)
Definition stage_has_key (key : string) (stage : Value) : bool :=
  match stage with
  | VDict entries => existsb (fun kv => String.eqb (fst kv) key) entries
  | _ => false
  end.

Definition has_stage (key : string) (pipeline : list Value) : bool :=
  existsb (stage_has_key key) pipeline.

(** The cascade stages as the specification words them: for every reference
    field, in declaration order, a lookup whose sub-pipeline holds the
    referenced model's own cascade stages and whose output goes under the
    field's name, immediately followed by the unwind of that name. *)
Fixpoint build_cascade_stages (m : Model) : list Value :=
  flat_map
    (fun ref : string * ODMReference =>
       [AIOEngine.lookup_stage
          (__collection__ (model (snd ref)))
          ("$" +:+ key_name (snd ref))
          (AIOEngine.match_foreign_id :: build_cascade_stages (model (snd ref)))
          (fst ref);
        AIOEngine.unwind_stage (fst ref)])
    (__references__ m).

(** ** Consuming a cursor *)

(** The two ways of consuming a cursor: [await cursor], or an [async for]
    over it whose body asks for at most [pulls] items. *)
Inductive Consumption : Type :=
| AwaitAll
| Iterate (pulls : nat).

(** What a consumption gave its caller: the whole ordered sequence, an
    exception, or the items received before the loop was left. *)
Inductive Consumed : Type :=
| Complete (instances : list Instance)
| Error (e : PyErr)
| Partial (instances : list Instance).

Definition consume `{ModelLayer} (how : Consumption) (cursor : AIOCursor.t)
    : AIOCursor.t * Consumed :=
  match how with
  | AwaitAll =>
      match AIOCursor.__await__ cursor with
      | (cursor, Ok instances) => (cursor, Complete instances)
      | (cursor, Raise e) => (cursor, Error e)
      end
  | Iterate pulls =>
      match AIOCursor.async_for pulls cursor (AIOCursor.__aiter__ cursor) [] with
      | (cursor, _, seen, AIOCursor.Exhausted) => (cursor, Complete seen)
      | (cursor, _, _, AIOCursor.Failed e) => (cursor, Error e)
      | (cursor, _, seen, AIOCursor.Abandoned) => (cursor, Partial seen)
      end
  end.

(** A consumption that is allowed to run to the end of [n] items: an
    [async for] needs one more resumption than there are items to see the
    generator finish. *)
Definition runs_to_end (how : Consumption) (n : nat) : Prop :=
  match how with
  | AwaitAll => True
  | Iterate pulls => (n < pulls)%nat
  end.

(** The documents a cursor's stream has handed out or still holds. *)
Definition stream_total (cursor : AIOCursor.t) : nat :=
  (mc_fetched (AIOCursor._motor_cursor cursor)
   + length (mc_pending (AIOCursor._motor_cursor cursor)))%nat.

(** What holds while an [async for] that started on a fresh generator is
    under way: what the loop has seen so far is what the generator is
    collecting, or the part of the cache it has replayed. *)
Definition tracks (self : AIOCursor.t) (g : AIOCursor.AiterState)
    (seen : list Instance) : Prop :=
  match g with
  | AIOCursor.Created => seen = []
  | AIOCursor.Replaying rest => AIOCursor._results self = Some (seen ++ rest)
  | AIOCursor.Streaming results => results = seen
  | AIOCursor.Finished => AIOCursor._results self = Some seen
  end.

(** [find_one] as the specification words it: materialize [find] with
    [limit=1] and take the first instance, or the absence marker when there
    is none. *)
Definition first_of_find `{ModelLayer} `{Driver} (m : Model) (query : Value)
    : Result (option Instance) :=
  match AIOEngine.find (AIOEngine.ModelClass m) query 1 0 with
  | Raise e => Raise e
  | Ok cursor =>
      match consume AwaitAll cursor with
      | (_, Complete instances) => Ok (head instances)
      | (_, Error e) => Raise e
      | (_, Partial _) => Ok None
      end
  end.

(** ** Observations on the saver *)

(** The step a coroutine takes once its gathered tasks are done, and the
    tasks it gathers. *)
Definition own_step (c : Coro) : Step :=
  match c with AwaitGather _ then_ => then_ end.

Definition gathered (c : Coro) : list Coro :=
  match c with AwaitGather save_tasks _ => save_tasks end.

(** The instance reached from [instance] by following the reference fields
    at the given positions. *)
Fixpoint node_at (path : list nat) (instance : Instance) : option Instance :=
  match path with
  | [] => Some instance
  | i :: rest =>
      match sub_instances instance !! i with
      | Some (_, sub_instance) => node_at rest sub_instance
      | None => None
      end
  end.

(** The write [_save] issues for an instance with the given [id]. *)
Definition upsert_of `{ModelLayer} (instance : Instance) (id : Value) : UpdateCall :=
  MkUpdateCall (__collection__ (type_of instance))
               (VDict [("_id", id)])
               (VDict [("$set",
                        doc instance
                            (__fields_modified__ instance ∖
                             {[ __primary_key__ (type_of instance) ]}))])
               true true None.

(** The writes among the events of a run. *)
Definition writes_of (events : list Event) : list UpdateCall :=
  omap (fun ev => match ev with EvUpdateOne call => Some call | EvRaise _ => None end)
       events.

(** The instances of a tree, every sub-instance before the instance that
    refers to it, once for each reference that leads to it. *)
Fixpoint nodes (instance : Instance) : list Instance :=
  (fix each (subs : list (string * Instance)) : list Instance :=
     match subs with
     | [] => []
     | (_, sub_instance) :: rest => nodes sub_instance ++ each rest
     end) (sub_instances instance) ++ [instance].

(** What [_save] does for one instance on its own account: nothing when no
    field is modified, else the upsert keyed by its [id], or the
    [AttributeError] of an instance without [id]. *)
Definition own_events `{ModelLayer} (instance : Instance) : list Event :=
  if decide (__fields_modified__ instance = ∅) then []
  else match getattr instance "id" with
       | Some id => [EvUpdateOne (upsert_of instance id)]
       | None => [EvRaise (AttributeError "id")]
       end.

(** ** A model layer and a driver for the scenarios *)

(** Modelled from the spec: [parse_raw_document] and [to_document] of the
    model layer, for models without references.  A raw document is parsed
    into an instance holding its entries, every one of them marked as set by
    the parse, and a value that is not a document is a parse error; [doc]
    is the document restricted to the fields asked for. *)
Definition flat_parse_doc (m : Model) (raw_doc : Value) : Result Instance :=
  match raw_doc with
  | VDict entries =>
      Ok (MkInstance m entries [] (list_to_set (map fst entries)))
  | _ => Raise (ValidationError raw_doc)
  end.

Definition flat_doc (instance : Instance) (include : gset string) : Value :=
  VDict (List.filter (fun kv => bool_decide (fst kv ∈ include)) (attrs instance)).

Definition flat_layer : ModelLayer :=
  {| parse_doc := flat_parse_doc; doc := flat_doc |}.

(** The scenario of the specification: [Book] references [Author]. *)
Definition Author : Model := MkModel "author" "id" [].
Definition Book : Model :=
  MkModel "book" "id" [("author", MkODMReference Author "author")].

Definition author_docs : list Value :=
  [VDict [("id", VInt 1); ("name", VStr "A")];
   VDict [("id", VInt 2); ("name", VStr "B")];
   VDict [("id", VInt 3); ("name", VStr "C")]].

(** A cursor over three author documents, nothing consumed yet. *)
Definition authors_cursor : AIOCursor.t :=
  AIOCursor.Make Author (MkMotorCursor "author" [] author_docs 0) None.

Definition an_author : Instance :=
  MkInstance Author [("id", VInt 1); ("name", VStr "A")] [] {["name"]}.

Definition a_book : Instance :=
  MkInstance Book [("id", VInt 1); ("title", VStr "T")]
             [("author", an_author)] {["title"]}.

(** A model whose declared primary key is not named [id]. *)
Definition Isbn_book : Model := MkModel "isbn_book" "isbn" [].

Definition an_isbn_book : Instance :=
  MkInstance Isbn_book [("isbn", VStr "978-0"); ("title", VStr "T")] [] {["title"]}.

(** A model with two reference fields. *)
Definition Publisher : Model := MkModel "publisher" "id" [].
Definition Edition : Model :=
  MkModel "edition" "id"
          [("author", MkODMReference Author "author");
           ("publisher", MkODMReference Publisher "publisher")].

Definition a_publisher : Instance :=
  MkInstance Publisher [("id", VInt 7); ("name", VStr "P")] [] {["name"]}.

Definition an_edition : Instance :=
  MkInstance Edition [("id", VInt 3); ("year", VInt 2020)]
             [("author", an_author); ("publisher", a_publisher)] {["year"]}.

(** The event loop that completes gathered tasks in the order they were
    created. *)
Definition in_order_loop : EventLoop := {| run_order := in_order |}.

(** A server that holds no documents and rejects the writes [rejects]
    answers for. *)
Definition driver_rejecting (rejects : UpdateCall -> option PyErr) : Driver :=
  {| aggregate := fun _ _ => [];
     server_rejects := fun _ call => rejects call |}.

Definition accepting_driver : Driver := driver_rejecting (fun _ => None).

(** The server refuses every write to the [book] collection with a
    transport error. *)
Definition book_write_fails : Driver :=
  driver_rejecting
    (fun call =>
       if String.eqb (uc_collection call) "book"
       then Some (PyMongoError "connection closed")
       else None).

(** The server refuses every write to the [author] collection with a
    uniqueness violation on [_id]. *)
Definition author_id_taken : Driver :=
  driver_rejecting
    (fun call =>
       if String.eqb (uc_collection call) "author"
       then Some (PyMongoDuplicateKeyError
                    [("keyPattern", VDict [("_id", VInt 1)])])
       else None).

(** The server refuses every write to the [book] collection with a
    uniqueness violation on [title]. *)
Definition book_title_taken : Driver :=
  driver_rejecting
    (fun call =>
       if String.eqb (uc_collection call) "book"
       then Some (PyMongoDuplicateKeyError
                    [("keyPattern", VDict [("title", VInt 1)])])
       else None).

(** A cursor whose second document is not a document. *)
Definition mixed_docs : list Value :=
  [VDict [("id", VInt 1); ("name", VStr "A")];
   VInt 13;
   VDict [("id", VInt 3); ("name", VStr "C")]].

Definition mixed_cursor : AIOCursor.t :=
  AIOCursor.Make Author (MkMotorCursor "author" [] mixed_docs 0) None.

(** The authors, already materialized. *)
Definition authors_materialized : AIOCursor.t :=
  fst (@AIOCursor.__await__ flat_layer authors_cursor).

(** A book and its author, none of them modified. *)
Definition a_clean_author : Instance :=
  MkInstance Author [("id", VInt 1); ("name", VStr "A")] [] ∅.

Definition a_clean_book : Instance :=
  MkInstance Book [("id", VInt 1); ("title", VStr "T")]
             [("author", a_clean_author)] ∅.


(** A query language of equalities: a filter is a dict, and a document
    matches when it holds every entry of the filter. *)
Fixpoint value_eqb (v w : Value) : bool :=
  match v, w with
  | VNone, VNone => true
  | VBool a, VBool b => Bool.eqb a b
  | VInt a, VInt b => Z.eqb a b
  | VStr a, VStr b => String.eqb a b
  | VList xs, VList ys =>
      (fix all (xs ys : list Value) : bool :=
         match xs, ys with
         | [], [] => true
         | x :: xs, y :: ys => value_eqb x y && all xs ys
         | _, _ => false
         end) xs ys
  | VDict xs, VDict ys =>
      (fix all (xs ys : list (string * Value)) : bool :=
         match xs, ys with
         | [], [] => true
         | (k, x) :: xs, (l, y) :: ys =>
             String.eqb k l && value_eqb x y && all xs ys
         | _, _ => false
         end) xs ys
  | _, _ => false
  end.

Definition equality_matches (filter_ document : Value) : bool :=
  match filter_, document with
  | VDict wanted, VDict entries =>
      forallb (fun kv =>
                 match assoc (fst kv) entries with
                 | Some v => value_eqb (snd kv) v
                 | None => false
                 end) wanted
  | _, _ => false
  end.

Definition equality_queries : QueryLanguage := {| matches := equality_matches |}.

(** A server that holds two books and one author. *)
Definition library : gmap string (list Value) :=
  {[ "book" := [VDict [("_id", VInt 1); ("title", VStr "T"); ("author", VInt 1)];
                VDict [("_id", VInt 2); ("title", VStr "U"); ("author", VInt 1)]];
     "author" := [VDict [("_id", VInt 1); ("name", VStr "A")]] ]}.

(** A model whose primary key is [isbn] and that has a plain field [id]. *)
Definition Catalogued : Model := MkModel "catalogued" "isbn" [].

Definition a_catalogued : Instance :=
  MkInstance Catalogued [("isbn", VStr "978-0"); ("id", VInt 5); ("title", VStr "T")]
             [] {["title"]}.

(** A server that streams the three author documents for any request on the
    [author] collection, and accepts every write. *)
Definition author_server : Driver :=
  {| aggregate := fun collection _ =>
                    if String.eqb collection "author" then author_docs else [];
     server_rejects := fun _ _ => None |}.

(** * Properties *)

(** Induction on the reference tree of a model: the property holds for a
    model as soon as it holds for every model it references. *)
Lemma Model_tree_ind (P : Model -> Prop) :
  (forall c pk refs,
      Forall (fun r => P (model (snd r))) refs -> P (MkModel c pk refs)) ->
  forall m, P m.
Proof.
  intros step.
  fix IH 1.
  intros [c pk refs]. apply step.
  induction refs as [|[name [m k]] refs IHrefs]; constructor.
  - simpl. apply IH.
  - exact IHrefs.
Qed.

(** Induction on the reference tree of an instance. *)
Lemma Instance_tree_ind (P : Instance -> Prop) :
  (forall t a subs fm,
      Forall (fun r => P (snd r)) subs -> P (MkInstance t a subs fm)) ->
  forall i, P i.
Proof.
  intros step.
  fix IH 1.
  intros [t a subs fm]. apply step.
  induction subs as [|[name sub] subs IHsubs]; constructor.
  - simpl. apply IH.
  - exact IHsubs.
Qed.

(** ** The pipeline builder *)

Import AIOEngine.

(** A loop that appends to an accumulator, started on the empty list: it is
    enough to know what it does from any accumulator. *)
Ltac from_any_accumulator l :=
  match goal with
  | |- ?loop l [] = ?appended =>
      let Hloop := fresh "Hloop" in
      enough (Hloop : forall acc, loop l acc = acc ++ appended)
        by apply (Hloop [])
  end.

(** The builder's accumulator loop computes the specification's stages,
    whatever namespace it is given. *)
Lemma cascade_pipeline_refines (m : Model) :
  forall doc_namespace,
    _cascade_find_pipeline m doc_namespace = build_cascade_stages m.
Proof.
  induction m as [c pk refs IH] using Model_tree_ind.
  intros ns. simpl.
  from_any_accumulator refs.
  induction refs as [|[name r] refs IHrefs]; intros acc.
  - now rewrite app_nil_r.
  - inversion IH as [|? ? Hr Hrefs]; subst. simpl in Hr.
    rewrite IHrefs by assumption.
    rewrite Hr. simpl. now rewrite <- !app_assoc.
Qed.

Lemma nesting_VList_cons key x xs :
  nesting key (VList (x :: xs)) = Nat.max (nesting key x) (nesting key (VList xs)).
Proof. reflexivity. Qed.

Lemma occurrences_VList_cons key x xs :
  occurrences key (VList (x :: xs)) =
  (occurrences key x + occurrences key (VList xs))%nat.
Proof. reflexivity. Qed.

Lemma nesting_lookup_stage from foreign pipeline as_ :
  nesting "$lookup" (lookup_stage from foreign pipeline as_) =
  S (nesting "$lookup" (VList pipeline)).
Proof.
  unfold lookup_stage.
  change (nesting "$lookup" (VDict [("$lookup", ?d)]))
    with (Nat.max (1 + nesting "$lookup" d) 0).
  rewrite Nat.max_0_r.
  change (1 + ?n)%nat with (S n). f_equal.
  change (nesting "$lookup"
            (VDict [("from", VStr from);
                    ("let", VDict [("foreign_id", VStr foreign)]);
                    ("pipeline", VList pipeline); ("as", VStr as_)]))
    with (Nat.max 0 (Nat.max 0 (Nat.max (0 + nesting "$lookup" (VList pipeline))
                                        (Nat.max 0 0)))).
  lia.
Qed.

Lemma occurrences_lookup_stage from foreign pipeline as_ :
  occurrences "$lookup" (lookup_stage from foreign pipeline as_) =
  S (occurrences "$lookup" (VList pipeline)).
Proof.
  unfold lookup_stage.
  change (occurrences "$lookup" (VDict [("$lookup", ?d)]))
    with (1 + occurrences "$lookup" d + 0)%nat.
  change (occurrences "$lookup"
            (VDict [("from", VStr from);
                    ("let", VDict [("foreign_id", VStr foreign)]);
                    ("pipeline", VList pipeline); ("as", VStr as_)]))
    with (0 + 0 + (0 + (0 + 0 + 0) + (0 + occurrences "$lookup" (VList pipeline)
                                     + (0 + 0 + 0))))%nat.
  lia.
Qed.

Lemma occurrences_unwind_in_lookup_stage from foreign pipeline as_ :
  occurrences "$unwind" (lookup_stage from foreign pipeline as_) =
  occurrences "$unwind" (VList pipeline).
Proof.
  unfold lookup_stage.
  change (occurrences "$unwind" (VDict [("$lookup", ?d)]))
    with (0 + occurrences "$unwind" d + 0)%nat.
  change (occurrences "$unwind"
            (VDict [("from", VStr from);
                    ("let", VDict [("foreign_id", VStr foreign)]);
                    ("pipeline", VList pipeline); ("as", VStr as_)]))
    with (0 + 0 + (0 + (0 + 0 + 0) + (0 + occurrences "$unwind" (VList pipeline)
                                     + (0 + 0 + 0))))%nat.
  lia.
Qed.

Lemma nesting_levels (m : Model) :
  nesting "$lookup" (VList (build_cascade_stages m)) = levels m.
Proof.
  induction m as [c pk refs IH] using Model_tree_ind.
  simpl build_cascade_stages. simpl levels.
  induction refs as [|[name r] refs IHrefs].
  - reflexivity.
  - inversion IH as [|? ? Hr Hrefs]; subst. cbn [snd] in Hr.
    cbn [flat_map fst snd app].
    rewrite !nesting_VList_cons, nesting_lookup_stage, nesting_VList_cons.
    rewrite Hr, (IHrefs Hrefs).
    change (nesting "$lookup" match_foreign_id) with O.
    change (nesting "$lookup" (unwind_stage name)) with O.
    reflexivity.
Qed.

Lemma occurrences_reference_count (m : Model) :
  occurrences "$lookup" (VList (build_cascade_stages m)) = reference_count m /\
  occurrences "$unwind" (VList (build_cascade_stages m)) = reference_count m.
Proof.
  induction m as [c pk refs IH] using Model_tree_ind.
  simpl build_cascade_stages. simpl reference_count.
  induction refs as [|[name r] refs IHrefs].
  - split; reflexivity.
  - inversion IH as [|? ? Hr Hrefs]; subst. cbn [snd] in Hr.
    destruct Hr as [Hl Hu]. destruct (IHrefs Hrefs) as [Hl' Hu'].
    cbn [flat_map fst snd app].
    rewrite !occurrences_VList_cons, occurrences_lookup_stage,
      occurrences_unwind_in_lookup_stage, !occurrences_VList_cons.
    rewrite Hl, Hu, Hl', Hu'.
    change (occurrences "$lookup" match_foreign_id) with O.
    change (occurrences "$unwind" match_foreign_id) with O.
    change (occurrences "$lookup" (unwind_stage name)) with O.
    change (occurrences "$unwind" (unwind_stage name)) with 1%nat.
    split; lia.
Qed.

(** A list built from one pair of items per element holds the pair of the
    [i]-th element at positions [2 * i] and [2 * i + 1]. *)
Lemma lookup_pairs {A B : Type} (first second : A -> B) (l : list A) :
  forall i : nat,
    flat_map (fun x => [first x; second x]) l !! (2 * i)%nat = first <$> l !! i /\
    flat_map (fun x => [first x; second x]) l !! (2 * i + 1)%nat = second <$> l !! i.
Proof.
  induction l as [|x l IHl]; intros i.
  - split; reflexivity.
  - destruct i as [|i].
    + split; reflexivity.
    + replace (2 * S i)%nat with (S (S (2 * i))) by lia.
      replace (S (S (2 * i)) + 1)%nat with (S (S (2 * i + 1))) by lia.
      apply (IHl i).
Qed.

Lemma length_pairs {A B : Type} (first second : A -> B) (l : list A) :
  length (flat_map (fun x => [first x; second x]) l) = (2 * length l)%nat.
Proof. induction l as [|x l IHl]; simpl in *; lia. Qed.

(** C3: the cascade pipeline of a model does not depend on anything but the
    model (the namespace argument is ignored); it is the sequence the
    specification describes; it holds, for the [i]-th reference field in
    declaration order, the lookup of that field at position [2 * i] (from
    the referenced collection, keyed by the reference's key name, with the
    referenced model's own cascade stages in its sub-pipeline, output under
    the field's name) immediately followed by its unwind at [2 * i + 1], and
    nothing else; lookups nest exactly as deep as the model has levels of
    references, and over all levels there is one lookup and one unwind per
    reference field. *)
Theorem cascade_pipeline_shape (m : Model) (doc_namespace : string) :
  let pipeline := _cascade_find_pipeline m doc_namespace in
  pipeline = _cascade_find_pipeline m "" /\
  pipeline = build_cascade_stages m /\
  length pipeline = (2 * length (__references__ m))%nat /\
  (forall i : nat,
      pipeline !! (2 * i)%nat =
        (fun ref : string * ODMReference =>
           lookup_stage (__collection__ (model (snd ref)))
                        ("$" +:+ key_name (snd ref))
                        (match_foreign_id ::
                         _cascade_find_pipeline (model (snd ref)) "")
                        (fst ref)) <$> __references__ m !! i /\
      pipeline !! (2 * i + 1)%nat =
        (fun ref : string * ODMReference => unwind_stage (fst ref))
          <$> __references__ m !! i) /\
  nesting "$lookup" (VList pipeline) = levels m /\
  occurrences "$lookup" (VList pipeline) = reference_count m /\
  occurrences "$unwind" (VList pipeline) = reference_count m.
Proof.
  intros pipeline. subst pipeline.
  rewrite !cascade_pipeline_refines.
  split; [reflexivity|]. split; [reflexivity|].
  split; [|split; [|split; [apply nesting_levels|apply occurrences_reference_count]]].
  - destruct m as [c pk refs]. simpl. apply length_pairs.
  - intros i. destruct m as [c pk refs].
    cbn [build_cascade_stages __references__].
    destruct (lookup_pairs
                (fun ref : string * ODMReference =>
                   lookup_stage (__collection__ (model (snd ref)))
                                ("$" +:+ key_name (snd ref))
                                (match_foreign_id ::
                                 build_cascade_stages (model (snd ref)))
                                (fst ref))
                (fun ref : string * ODMReference => unwind_stage (fst ref))
                refs i) as [Hl Hu].
    split; [|exact Hu].
    rewrite Hl. destruct (refs !! i) as [[name r]|]; [|reflexivity].
    simpl. now rewrite cascade_pipeline_refines.
Qed.

Example cascade_pipeline_Book :
  _cascade_find_pipeline Book "" =
  [lookup_stage "author" "$author" [match_foreign_id] "author";
   unwind_stage "author"].
Proof. reflexivity. Qed.

(** ** The pipeline of [find] *)

Section FindPipeline.
Context `{ModelLayer} `{Driver} `{EventLoop}.

Lemma cascade_has_no_limit_skip (m : Model) (doc_namespace : string) :
  has_stage "$limit" (_cascade_find_pipeline m doc_namespace) = false /\
  has_stage "$skip" (_cascade_find_pipeline m doc_namespace) = false.
Proof.
  rewrite cascade_pipeline_refines.
  destruct m as [c pk refs]. cbn [build_cascade_stages __references__].
  induction refs as [|[name r] refs [IHl IHs]]; [split; reflexivity|].
  cbn [flat_map app fst snd]. unfold has_stage in *.
  cbn [existsb]. rewrite IHl, IHs. split; reflexivity.
Qed.

Lemma cascade_stage_is_lookup_or_unwind (m : Model) (doc_namespace : string) stage :
  In stage (_cascade_find_pipeline m doc_namespace) ->
  stage_has_key "$lookup" stage = true \/ stage_has_key "$unwind" stage = true.
Proof.
  rewrite cascade_pipeline_refines.
  destruct m as [c pk refs]. cbn [build_cascade_stages __references__].
  induction refs as [|[name r] refs IHrefs]; [intros []|].
  cbn [flat_map app fst snd]. intros [<-|[<-|Hin]]; auto.
Qed.

(** C7: the pipeline [find] sends is the match stage on the query, then the
    limit stage, then the skip stage, then the cascade stages of the model;
    the limit stage is there exactly when [limit > 0] and the skip stage
    exactly when [skip > 0], so that no stage ever encodes a limit or a skip
    of 0. *)
Theorem find_pipeline_order (m : Model) (query : Value) (limit skip : Z) :
  exists cursor : AIOCursor.t,
    find (ModelClass m) query limit skip = Ok cursor /\
    let pipeline := mc_pipeline (AIOCursor._motor_cursor cursor) in
    pipeline =
      [VDict [("$match", query)]]
      ++ (if decide (0 < limit) then [VDict [("$limit", VInt limit)]] else [])
      ++ (if decide (0 < skip) then [VDict [("$skip", VInt skip)]] else [])
      ++ _cascade_find_pipeline m "" /\
    (has_stage "$limit" pipeline = true <-> 0 < limit) /\
    (has_stage "$skip" pipeline = true <-> 0 < skip) /\
    ~ In (VDict [("$limit", VInt 0)]) pipeline /\
    ~ In (VDict [("$skip", VInt 0)]) pipeline.
Proof.
  eexists. split; [reflexivity|].
  cbn [AIOCursor._motor_cursor mc_pipeline collection_aggregate].
  destruct (cascade_has_no_limit_skip m "") as [Hnl Hns].
  assert (Hnot : forall stage,
             In stage (_cascade_find_pipeline m "") ->
             stage_has_key "$limit" stage = false /\
             stage_has_key "$skip" stage = false).
  { intros stage Hin.
    unfold has_stage in Hnl, Hns.
    split; apply not_true_is_false; intros Hkey.
    - assert (Hex : existsb (stage_has_key "$limit") (_cascade_find_pipeline m "") = true)
        by (apply existsb_exists; eauto).
      congruence.
    - assert (Hex : existsb (stage_has_key "$skip") (_cascade_find_pipeline m "") = true)
        by (apply existsb_exists; eauto).
      congruence. }
  destruct (Z.ltb_spec 0 limit) as [Hl|Hl], (Z.ltb_spec 0 skip) as [Hs|Hs];
    destruct (decide (0 < limit)) as [Hl'|Hl']; try lia;
    destruct (decide (0 < skip)) as [Hs'|Hs']; try lia;
    cbn [app]; unfold has_stage; cbn [existsb stage_has_key fst String.eqb Ascii.eqb Bool.eqb orb];
    fold (has_stage "$limit" (_cascade_find_pipeline m ""));
    fold (has_stage "$skip" (_cascade_find_pipeline m ""));
    rewrite ?Hnl, ?Hns.
  all: split; [reflexivity|].
  all: split; [split; [intros; lia|intros; try reflexivity; try lia]|].
  all: split; [split; [intros; lia|intros; try reflexivity; try lia]|].
  all: split; intros Hin; cbn [In] in Hin;
    repeat (destruct Hin as [Heq|Hin]; [try discriminate Heq; inversion Heq; lia|]);
    destruct (Hnot _ Hin) as [Hk1 Hk2]; discriminate.
Qed.

End FindPipeline.

(** ** The lazy result cursor *)

Section CursorFacts.
Context `{ModelLayer}.
Import AIOCursor.

(** Parsing looks at nothing but the cursor's model. *)
Lemma parse_document_model (self self' : t) raw_doc :
  _model self = _model self' ->
  _parse_document self raw_doc = _parse_document self' raw_doc.
Proof. unfold _parse_document. now intros ->. Qed.

Lemma parse_all_model (self self' : t) raw_docs :
  _model self = _model self' ->
  forall instances,
    parse_all self raw_docs instances = parse_all self' raw_docs instances.
Proof.
  intros Hm. induction raw_docs as [|raw_doc rest IH]; intros instances.
  - reflexivity.
  - simpl. rewrite (parse_document_model self self' raw_doc Hm).
    destruct (_parse_document self' raw_doc); [apply IH|reflexivity].
Qed.

(** The replay loop hands out the cache and leaves the cursor alone. *)
Lemma replay_to_end (self : t) :
  forall rest pulls seen,
    (length rest < pulls)%nat ->
    async_for pulls self (Replaying rest) seen =
    (self, Finished, seen ++ rest, Exhausted).
Proof.
  induction rest as [|res rest IH]; intros pulls seen Hlt.
  - destruct pulls as [|pulls]; [simpl in Hlt; lia|].
    simpl. now rewrite app_nil_r.
  - destruct pulls as [|pulls]; [simpl in Hlt; lia|].
    simpl in *. rewrite IH by lia. now rewrite <- app_assoc.
Qed.

Lemma iterate_cached (self : t) results pulls :
  _results self = Some results ->
  (length results < pulls)%nat ->
  async_for pulls self Created [] = (self, Finished, results, Exhausted).
Proof.
  intros Hres Hlt.
  destruct pulls as [|pulls]; [lia|].
  cbn [async_for __anext__]. rewrite Hres.
  destruct results as [|res rest]; [reflexivity|].
  cbn [replay]. simpl in Hlt.
  now rewrite replay_to_end by lia.
Qed.

Lemma await_cached (self : t) results :
  _results self = Some results ->
  __await__ self = (self, Ok results).
Proof. unfold __await__. now intros ->. Qed.

(** One resumption of the generator never hands a document out twice. *)
Lemma anext_stream_total (self : t) g :
  stream_total (fst (fst (__anext__ self g))) = stream_total self.
Proof.
  assert (Hreplay : forall rest,
             stream_total (fst (fst (replay self rest))) = stream_total self)
    by (intros [|? ?]; reflexivity).
  assert (Hstream : forall results,
             stream_total (fst (fst (stream self results))) = stream_total self).
  { intros results. unfold stream, motor_next, stream_total.
    destruct self as [m [coll pipe pending fetched] res]. simpl.
    destruct pending as [|raw_doc pending]; [reflexivity|].
    destruct (_parse_document _ raw_doc); simpl; lia. }
  destruct g as [|rest|results|]; simpl; auto.
  destruct (_results self); auto.
Qed.

Lemma async_for_exhausted pulls :
  forall self g seen self' g' seen',
    tracks self g seen ->
    async_for pulls self g seen = (self', g', seen', Exhausted) ->
    _results self' = Some seen' /\ stream_total self' = stream_total self.
Proof.
  induction pulls as [|pulls IH]; intros self g seen self' g' seen' Htr Hrun.
  - discriminate.
  - cbn [async_for] in Hrun.
    pose proof (anext_stream_total self g) as Htotal.
    destruct (__anext__ self g) as [[self1 g1] [instance| |e]] eqn:Hnext;
      cbn [fst] in Htotal.
    + apply IH in Hrun; [destruct Hrun as [Hres Ht]; split; [exact Hres|lia]|].
      clear IH Htotal.
      destruct g as [|rest|results|]; cbn [__anext__ tracks] in *.
      * subst seen. destruct (_results self) as [results|] eqn:Hres.
        -- destruct results as [|res rest]; cbn [replay] in Hnext; [discriminate|].
           injection Hnext as <- <- <-. exact Hres.
        -- unfold stream in Hnext.
           destruct (motor_next (_motor_cursor self)) as [[raw_doc|] mc]; [|discriminate].
           destruct (_parse_document _ raw_doc); [|discriminate].
           injection Hnext as <- <- <-. reflexivity.
      * destruct rest as [|res rest]; cbn [replay] in Hnext; [discriminate|].
        injection Hnext as <- <- <-. cbn [tracks]. now rewrite <- app_assoc.
      * subst results. unfold stream in Hnext.
        destruct (motor_next (_motor_cursor self)) as [[raw_doc|] mc]; [|discriminate].
        destruct (_parse_document _ raw_doc); [|discriminate].
        injection Hnext as <- <- <-. reflexivity.
      * discriminate.
    + injection Hrun as <- <- <-. split; [|exact Htotal].
      clear IH Htotal.
      destruct g as [|rest|results|]; cbn [__anext__ tracks] in *.
      * subst seen. destruct (_results self) as [results|] eqn:Hres.
        -- destruct results as [|res rest]; cbn [replay] in Hnext; [|discriminate].
           injection Hnext as <- <-. exact Hres.
        -- unfold stream in Hnext.
           destruct (motor_next (_motor_cursor self)) as [[raw_doc|] mc].
           ++ destruct (_parse_document _ raw_doc); discriminate.
           ++ injection Hnext as <- <-. reflexivity.
      * destruct rest as [|res rest]; cbn [replay] in Hnext; [|discriminate].
        injection Hnext as <- <-. now rewrite app_nil_r in Htr.
      * subst results. unfold stream in Hnext.
        destruct (motor_next (_motor_cursor self)) as [[raw_doc|] mc].
        -- destruct (_parse_document _ raw_doc); discriminate.
        -- injection Hnext as <- <-. reflexivity.
      * injection Hnext as <- <-. exact Htr.
    + discriminate.
Qed.

Lemma consume_complete (how : Consumption) (cursor cursor1 : t) instances :
  consume how cursor = (cursor1, Complete instances) ->
  _results cursor1 = Some instances /\ stream_total cursor1 = stream_total cursor.
Proof.
  destruct how as [|pulls]; cbn [consume].
  - unfold __await__.
    destruct (_results cursor) as [results|] eqn:Hres.
    + intros [= <- <-]. now split.
    + destruct cursor as [m [coll pipe pending fetched] res].
      cbn [to_list _motor_cursor _model mc_pending mc_fetched mc_collection mc_pipeline].
      destruct (parse_all _ pending []) as [parsed|e]; [|discriminate].
      intros [= <- <-]. split; [reflexivity|].
      unfold stream_total. simpl. lia.
  - unfold __aiter__.
    destruct (async_for pulls cursor Created []) as [[[self' g'] seen'] [ |e| ]] eqn:Hrun;
      [|discriminate|discriminate].
    intros [= <- <-].
    now apply (async_for_exhausted pulls cursor Created [] self' g' seen').
Qed.

(** C4: once a cursor has been materialized in full, by [await] or by an
    [async for] that ran to exhaustion, materializing it again in either way
    gives the same ordered sequence of instances; the second time the cursor
    is left exactly as it was, its cache holding that sequence and its
    stream untouched, and over the first time no document of the stream was
    handed out twice. *)
Theorem materialize_twice (how1 how2 : Consumption) (cursor cursor1 : t)
    (instances : list Instance) :
  consume how1 cursor = (cursor1, Complete instances) ->
  runs_to_end how2 (length instances) ->
  consume how2 cursor1 = (cursor1, Complete instances) /\
  _results cursor1 = Some instances /\
  stream_total cursor1 = stream_total cursor.
Proof.
  intros Hfirst Hend.
  destruct (consume_complete how1 cursor cursor1 instances Hfirst) as [Hres Htotal].
  split; [|now split].
  destruct how2 as [|pulls]; cbn [consume runs_to_end] in *.
  - now rewrite (await_cached cursor1 instances Hres).
  - unfold __aiter__.
    now rewrite (iterate_cached cursor1 instances pulls Hres Hend).
Qed.

(** The streaming loop of the generator, left after [k] items. *)
Lemma stream_abandoned (m : Model) coll pipe :
  forall k pending fetched results cached yielded,
    (k <= length pending)%nat ->
    parse_all (Make m (MkMotorCursor coll pipe pending fetched) cached)
              (take k pending) results = Ok yielded ->
    async_for k (Make m (MkMotorCursor coll pipe pending fetched) cached)
              (Streaming results) results =
    (Make m (MkMotorCursor coll pipe (drop k pending) (fetched + k)) cached,
     Streaming yielded, yielded, Abandoned).
Proof.
  induction k as [|k IH]; intros pending fetched results cached yielded Hle Hparse.
  - simpl in Hparse. injection Hparse as <-.
    simpl. now rewrite Nat.add_0_r.
  - destruct pending as [|raw_doc pending]; [simpl in Hle; lia|].
    cbn [take parse_all] in Hparse.
    cbn [async_for __anext__]. unfold stream.
    cbn [motor_next _motor_cursor mc_pending _model _results mc_collection
         mc_pipeline mc_fetched].
    rewrite (parse_document_model _
               (Make m (MkMotorCursor coll pipe (raw_doc :: pending) fetched) cached))
      by reflexivity.
    destruct (_parse_document _ raw_doc) as [instance|e]; [|discriminate].
    rewrite (parse_all_model _
               (Make m (MkMotorCursor coll pipe pending (S fetched)) cached))
      in Hparse by reflexivity.
    rewrite (IH pending (S fetched) (results ++ [instance]) cached yielded);
      [|simpl in Hle; lia|exact Hparse].
    cbn [drop]. replace (S fetched + k)%nat with (fetched + S k)%nat by lia.
    reflexivity.
Qed.

(** C10: an [async for] over a cursor that is not materialized, left after
    [k] items, leaves the cursor not materialized, with nothing cached and
    the first [k] documents gone from its stream; an [await] of the cursor
    then returns, and caches as the materialized result, the instances of
    the documents that were left and only those, so that the [k] instances
    handed out before are missing from it. *)
Theorem abandoned_iteration_loses_items (cursor : t) (k : nat)
    (yielded remaining : list Instance) :
  let pending := mc_pending (_motor_cursor cursor) in
  _results cursor = None ->
  (0 < k <= length pending)%nat ->
  parse_all cursor (take k pending) [] = Ok yielded ->
  parse_all cursor (drop k pending) [] = Ok remaining ->
  exists cursor1 cursor2 : t,
    async_for k cursor (__aiter__ cursor) [] =
      (cursor1, Streaming yielded, yielded, Abandoned) /\
    _results cursor1 = None /\
    mc_pending (_motor_cursor cursor1) = drop k pending /\
    __await__ cursor1 = (cursor2, Ok remaining) /\
    _results cursor2 = Some remaining /\
    (length yielded = k /\ length remaining + k = length pending)%nat.
Proof.
  destruct cursor as [m [coll pipe pending fetched] cached].
  cbn [_motor_cursor mc_pending _results]. intros -> [Hpos Hle] Hy Hr.
  destruct k as [|k]; [lia|].
  exists (Make m (MkMotorCursor coll pipe (drop (S k) pending) (fetched + S k)) None).
  exists (Make m (MkMotorCursor coll pipe []
                    (fetched + S k + length (drop (S k) pending))) (Some remaining)).
  assert (Hlen : forall docs self acc out,
             parse_all self docs acc = Ok out ->
             length out = (length acc + length docs)%nat).
  { induction docs as [|d docs IHd]; intros self acc out Hp.
    - injection Hp as <-. simpl. lia.
    - simpl in Hp. destruct (_parse_document self d); [|discriminate].
      apply IHd in Hp. rewrite length_app in Hp. simpl in *. lia. }
  split.
  { pose proof (stream_abandoned m coll pipe (S k) pending fetched [] None yielded
                  Hle Hy) as Hrun.
    cbn [async_for __anext__] in *. exact Hrun. }
  split; [reflexivity|]. split; [reflexivity|].
  split.
  { unfold __await__.
    cbn [_results to_list _motor_cursor _model mc_pending mc_fetched
         mc_collection mc_pipeline].
    rewrite (parse_all_model _
               (Make m (MkMotorCursor coll pipe pending fetched) None))
      by reflexivity.
    now rewrite Hr. }
  split; [reflexivity|].
  apply Hlen in Hy, Hr. rewrite length_take in Hy. rewrite length_drop in Hr.
  cbn [length] in Hy, Hr. lia.
Qed.

End CursorFacts.

(** The three authors, awaited and then iterated over. *)
Lemma materialize_twice_witness :
  exists (cursor1 : AIOCursor.t) (instances : list Instance),
    @consume flat_layer AwaitAll authors_cursor = (cursor1, Complete instances) /\
    length instances = 3%nat /\
    @consume flat_layer (Iterate 4) cursor1 = (cursor1, Complete instances) /\
    AIOCursor._results cursor1 = Some instances /\
    stream_total cursor1 = stream_total authors_cursor.
Proof.
  pose (first := @consume flat_layer AwaitAll authors_cursor).
  exists (fst first).
  exists (match snd first with Complete instances => instances | _ => [] end).
  split; [reflexivity|]. split; [reflexivity|].
  apply (@materialize_twice flat_layer AwaitAll (Iterate 4) authors_cursor).
  - reflexivity.
  - vm_compute. lia.
Defined.

(** The three authors: an [async for] left after the first one, then an
    [await] that only returns the other two. *)
Lemma abandoned_iteration_loses_items_witness :
  exists (yielded remaining : list Instance) (cursor1 cursor2 : AIOCursor.t),
    length yielded = 1%nat /\ length remaining = 2%nat /\
    @AIOCursor.async_for flat_layer 1 authors_cursor
       (AIOCursor.__aiter__ authors_cursor) [] =
      (cursor1, AIOCursor.Streaming yielded, yielded, AIOCursor.Abandoned) /\
    AIOCursor._results cursor1 = None /\
    mc_pending (AIOCursor._motor_cursor cursor1) = drop 1 author_docs /\
    @AIOCursor.__await__ flat_layer cursor1 = (cursor2, Ok remaining) /\
    AIOCursor._results cursor2 = Some remaining /\
    (length yielded = 1 /\ length remaining + 1 = length author_docs)%nat.
Proof.
  pose (yielded :=
          match @AIOCursor.parse_all flat_layer authors_cursor (take 1 author_docs) [] with
          | Ok instances => instances
          | Raise _ => []
          end).
  pose (remaining :=
          match @AIOCursor.parse_all flat_layer authors_cursor (drop 1 author_docs) [] with
          | Ok instances => instances
          | Raise _ => []
          end).
  exists yielded, remaining.
  destruct (@abandoned_iteration_loses_items flat_layer authors_cursor 1
              yielded remaining) as (cursor1 & cursor2 & Hrun);
    [reflexivity|simpl; lia|reflexivity|reflexivity|].
  exists cursor1, cursor2.
  split; [reflexivity|]. split; [reflexivity|]. exact Hrun.
Defined.

(** ** [find_one] *)

Section FindOne.
Context `{ModelLayer} `{Driver}.

(** C9: [find_one] on a model and a query is the materialization of [find]
    with [limit=1] (and no skip) on them: its cursor is the one [find]
    builds, it returns the first instance of the materialized sequence when
    there is one, the absence marker [None] when the sequence is empty, and
    raises what the materialization raises. *)
Theorem find_one_is_first_of_find (m : Model) (query : Value) :
  find_one (ModelClass m) query = first_of_find m query /\
  exists cursor : AIOCursor.t,
    find (ModelClass m) query 1 0 = Ok cursor /\
    mc_pipeline (AIOCursor._motor_cursor cursor) =
      VDict [("$match", query)] :: VDict [("$limit", VInt 1)]
      :: _cascade_find_pipeline m "" /\
    match consume AwaitAll cursor with
    | (_, Complete []) => find_one (ModelClass m) query = Ok None
    | (_, Complete (first :: _)) => find_one (ModelClass m) query = Ok (Some first)
    | (_, Error e) => find_one (ModelClass m) query = Raise e
    | (_, Partial _) => False
    end.
Proof.
  unfold first_of_find, find_one.
  cbn [lenient_issubclass_Model negb find Z.ltb Z.compare app].
  cbn [consume].
  set (cursor := AIOCursor.Make m _ None).
  split.
  - destruct (AIOCursor.__await__ cursor) as [cursor' [results|e]]; cbn [snd];
      [|reflexivity].
    destruct results as [|first rest]; reflexivity.
  - exists cursor. split; [reflexivity|]. split; [reflexivity|].
    destruct (AIOCursor.__await__ cursor) as [cursor' [results|e]]; cbn [snd];
      [|reflexivity].
    destruct results as [|first rest]; reflexivity.
Qed.

End FindOne.

(** ** Runs under [gather] *)

(** Induction on a run, with the property available for the run of every
    gathered task. *)
Lemma schedule_tree_ind (P : Coro -> list Event -> Prop) :
  (forall save_tasks then_ traces merged,
      Forall2 (fun c t => schedule c t /\ P c t) save_tasks traces ->
      interleaving traces merged ->
      P (AwaitGather save_tasks then_) (merged ++ step_events then_)) ->
  forall c tr, schedule c tr -> P c tr.
Proof.
  intros step.
  fix IH 3.
  intros c tr [save_tasks then_ traces merged Htasks Hmerge].
  apply (step _ _ traces); [|exact Hmerge].
  clear Hmerge.
  induction Htasks as [|c' t' cs ts Hct Hrest IHrest]; constructor.
  - split; [exact Hct|apply IH; exact Hct].
  - exact IHrest.
Qed.

(** Induction on the tree of gathered tasks. *)
Lemma Coro_tree_ind (P : Coro -> Prop) :
  (forall save_tasks then_, Forall P save_tasks -> P (AwaitGather save_tasks then_)) ->
  forall c, P c.
Proof.
  intros step.
  fix IH 1.
  intros [save_tasks then_]. apply step.
  induction save_tasks as [|c cs IHcs]; constructor; [apply IH|exact IHcs].
Qed.

Lemma interleaving_after_done {A : Type} (ls : list (list A)) :
  forall pre,
    Forall (fun l => l = []) pre ->
    interleaving (pre ++ ls) (concat ls).
Proof.
  induction ls as [|l ls IHls]; intros pre Hpre.
  - rewrite app_nil_r. now constructor.
  - induction l as [|x t IHt].
    + cbn [concat app].
      replace (pre ++ [] :: ls) with ((pre ++ [[]]) ++ ls)
        by now rewrite <- app_assoc.
      apply IHls. apply Forall_app. split; [exact Hpre|now repeat constructor].
    + cbn [concat app]. apply interleaving_step. exact IHt.
Qed.

(** Running the tasks one after the other is one way of interleaving
    them. *)
Lemma interleaving_concat {A : Type} (ls : list (list A)) :
  interleaving ls (concat ls).
Proof. apply (interleaving_after_done ls []). constructor. Qed.

Lemma in_order_gather save_tasks then_ :
  in_order (AwaitGather save_tasks then_) =
  concat (map in_order save_tasks) ++ step_events then_.
Proof.
  cbn [in_order]. f_equal.
  induction save_tasks as [|c cs IH]; [reflexivity|].
  cbn [map concat]. now rewrite IH.
Qed.

Lemma in_order_schedule (c : Coro) : schedule c (in_order c).
Proof.
  induction c as [save_tasks then_ IH] using Coro_tree_ind.
  rewrite in_order_gather.
  apply (schedule_gather _ _ (map in_order save_tasks));
    [|apply interleaving_concat].
  induction IH as [|c cs Hc Hcs IHcs]; constructor; assumption.
Qed.

Lemma in_order_loop_faithful : faithful in_order_loop.
Proof. intros c. apply in_order_schedule. Qed.

(** ** The recursive cascading saver *)

Section SaverFacts.
Context `{ModelLayer} `{Driver} `{EventLoop}.

(** The [save_tasks] loop creates one task per reference field, in
    declaration order. *)
Lemma save_gathers_sub_instances (instance : Instance) (session : Session) :
  gathered (_save instance session) =
  map (fun sub => _save (snd sub) session) (sub_instances instance).
Proof.
  destruct instance as [t a subs fm]. cbn [_save gathered sub_instances].
  from_any_accumulator subs.
  induction subs as [|[name sub] subs IH]; intros acc.
  - now rewrite app_nil_r.
  - rewrite IH. cbn [map snd]. now rewrite <- app_assoc.
Qed.

(** The step [_save] takes for an instance once its sub-instances are
    saved. *)
Lemma save_own_step (instance : Instance) (session : Session) :
  own_step (_save instance session) =
  if decide (__fields_modified__ instance = ∅) then StepReturn
  else match getattr instance "id" with
       | None => StepRaise (AttributeError "id")
       | Some id => StepUpdateOne (upsert_of instance id)
       end.
Proof.
  destruct instance as [t a subs fm]. cbn [_save own_step __fields_modified__].
  destruct (decide (fm = ∅)) as [->|Hne].
  - reflexivity.
  - destruct (Nat.eqb_spec (size fm) 0) as [Hz|Hnz]; [|reflexivity].
    apply size_empty_inv in Hz. apply leibniz_equiv in Hz. contradiction.
Qed.

Lemma save_unfold (instance : Instance) (session : Session) :
  _save instance session =
  AwaitGather (map (fun sub => _save (snd sub) session) (sub_instances instance))
              (own_step (_save instance session)).
Proof.
  rewrite <- save_gathers_sub_instances.
  now destruct (_save instance session).
Qed.

(** The session [_save] is given never reaches a write. *)
Lemma save_step_without_session (instance : Instance) (session : Session) call :
  own_step (_save instance session) = StepUpdateOne call ->
  uc_session call = None.
Proof.
  rewrite save_own_step.
  destruct (decide _); [discriminate|].
  destruct (getattr instance "id"); [|discriminate].
  now intros [= <-].
Qed.

Lemma interleaving_elem_of {A : Type} (ls : list (list A)) (l : list A) :
  interleaving ls l ->
  forall x, x ∈ l -> exists t, t ∈ ls /\ x ∈ t.
Proof.
  induction 1 as [ls Hdone|pre y t post rest Hrest IH]; intros x Hx.
  - now apply elem_of_nil in Hx.
  - apply elem_of_cons in Hx as [->|Hx].
    + exists (y :: t). split; [|left]. apply elem_of_app. right. left.
    + destruct (IH x Hx) as (t' & Ht' & Hxt').
      apply elem_of_app in Ht' as [Ht'|Ht'].
      * exists t'. split; [|exact Hxt']. apply elem_of_app. now left.
      * apply elem_of_cons in Ht' as [->|Ht'].
        -- exists (y :: t). split; [|now right]. apply elem_of_app. right. left.
        -- exists t'. split; [|exact Hxt']. apply elem_of_app. right. now right.
Qed.

Lemma save_run_without_session (instance : Instance) (session : Session) :
  forall events,
    schedule (_save instance session) events ->
    forall call, EvUpdateOne call ∈ events -> uc_session call = None.
Proof.
  induction instance as [t a subs fm IH] using Instance_tree_ind.
  intros events Hrun call Hin.
  rewrite save_unfold in Hrun. cbn [sub_instances] in Hrun.
  pose proof (save_step_without_session (MkInstance t a subs fm) session) as Hown.
  revert Hrun Hown. generalize (own_step (_save (MkInstance t a subs fm) session)).
  intros k Hrun Hown.
  inversion Hrun as [tasks then_ traces merged Htasks Hmerge Heq1 Heq2]; subst.
  apply elem_of_app in Hin as [Hin|Hin].
  - destruct (interleaving_elem_of _ _ Hmerge _ Hin) as (tr & Htr & Hcall).
    clear Hrun Hmerge Hin.
    revert traces Htasks Htr.
    induction IH as [|[name sub] subs Hsub Hsubs IHsubs]; intros traces Htasks Htr.
    + inversion Htasks; subst. now apply elem_of_nil in Htr.
    + cbn [map] in Htasks. inversion Htasks as [|? tr0 ? trs Hhead Htail]; subst.
      apply elem_of_cons in Htr as [->|Htr].
      * exact (Hsub tr0 Hhead call Hcall).
      * exact (IHsubs trs Htail Htr).
  - destruct k as [|call'|e]; cbn [step_events] in Hin.
    + now apply elem_of_nil in Hin.
    + apply list_elem_of_singleton in Hin. injection Hin as <-.
      now apply Hown.
    + apply list_elem_of_singleton in Hin. discriminate.
Qed.

(** Writes issued without a session go straight to the persisted log: a
    run persists every write the server accepted before the run ended, and
    stages nothing. *)
Lemma play_without_session (events : list Event) :
  (forall call, EvUpdateOne call ∈ events -> uc_session call = None) ->
  forall st st' outcome,
    play st events = (st', outcome) ->
    staged st' = staged st /\
    sessions_started st' = sessions_started st /\
    exists accepted,
      persisted st' = persisted st ++ accepted /\
      accepted `prefix_of` writes_of events /\
      (outcome = Ok tt -> accepted = writes_of events).
Proof.
  induction events as [|ev events IH]; intros Hnone st st' outcome Hplay.
  - injection Hplay as <- <-. split; [reflexivity|]. split; [reflexivity|].
    exists []. rewrite app_nil_r. repeat split; reflexivity.
  - destruct ev as [call|e]; cbn [play] in Hplay.
    + unfold update_one in Hplay.
      destruct (server_rejects st call) as [e|].
      * injection Hplay as <- <-. split; [reflexivity|]. split; [reflexivity|].
        exists []. rewrite app_nil_r. split; [reflexivity|].
        split; [apply prefix_nil|discriminate].
      * rewrite (Hnone call) in Hplay by left.
        apply IH in Hplay; [|intros c Hc; apply Hnone; now right].
        destruct Hplay as (Hst & Hss & accepted & Hp & Hpre & Hok).
        cbn [staged persisted sessions_started] in *.
        split; [exact Hst|]. split; [exact Hss|].
        exists (call :: accepted). rewrite Hp, <- app_assoc.
        split; [reflexivity|].
        cbn [writes_of omap]. fold (writes_of events).
        split; [now apply prefix_cons|].
        intros Hout. now rewrite (Hok Hout).
    + injection Hplay as <- <-. split; [reflexivity|]. split; [reflexivity|].
      exists []. rewrite app_nil_r. split; [reflexivity|].
      split; [apply prefix_nil|discriminate].
Qed.

(** Writes issued with a session are only staged: as long as its
    transaction is not committed, a run of such writes leaves what is
    persisted as it was, and aborting the transaction keeps it so. *)
Lemma play_in_session (s : Session) (events : list Event) :
  (forall call, EvUpdateOne call ∈ events -> uc_session call = Some s) ->
  forall st st' outcome,
    play st events = (st', outcome) ->
    persisted st' = persisted st /\
    persisted (abort_transaction st' s) = persisted st.
Proof.
  induction events as [|ev events IH]; intros Hsome st st' outcome Hplay.
  - injection Hplay as <- <-. now split.
  - destruct ev as [call|e]; cbn [play] in Hplay.
    + unfold update_one in Hplay.
      destruct (server_rejects st call) as [e|].
      * injection Hplay as <- <-. now split.
      * rewrite (Hsome call) in Hplay by left.
        apply IH in Hplay; [exact Hplay|].
        intros c Hc. apply Hsome. now right.
    + injection Hplay as <- <-. now split.
Qed.

(** A successful [save] returns its argument with an empty modified-fields
    set, and nothing else changed. *)
Lemma save_ok_clears_root (st st' : Store) (instance instance' : Instance) :
  save st instance = (st', Ok instance') ->
  instance' = clear_fields_modified instance.
Proof.
  unfold save. cbn [start_session].
  destruct (play _ _) as [st1 [[]|e]].
  - now intros [= _ <-].
  - destruct e; discriminate.
Qed.

(** A freshly parsed instance has an empty modified-fields set. *)
Lemma parse_document_clean (self : AIOCursor.t) raw_doc instance :
  AIOCursor._parse_document self raw_doc = Ok instance ->
  __fields_modified__ instance = ∅.
Proof.
  unfold AIOCursor._parse_document.
  destruct (parse_doc _ raw_doc); [|discriminate].
  now intros [= <-].
Qed.

(** Whatever [save] does, what it leaves persisted is what was persisted
    before followed by the writes the server accepted, whether the call
    returned or raised: the transaction it opened holds none of them. *)
Lemma save_persists_accepted_writes (st st' : Store) (instance : Instance) outcome :
  faithful _ ->
  staged st = [] ->
  save st instance = (st', outcome) ->
  exists accepted,
    persisted st' = persisted st ++ accepted /\
    accepted `prefix_of`
      writes_of (run_order (_save instance (sessions_started st))) /\
    staged st' = [].
Proof.
  intros Hloop Hstaged. unfold save. cbn [start_session].
  destruct (play _ _) as [st1 out1] eqn:Hplay.
  apply play_without_session in Hplay;
    [|intros call; apply (save_run_without_session instance _ _ (Hloop _))].
  destruct Hplay as (Hst & Hss & accepted & Hp & Hpre & Hok).
  cbn [start_transaction persisted staged sessions_started] in *.
  rewrite Hstaged in Hst. cbn in Hst.
  assert (Hcommit : persisted (commit_transaction st1 (sessions_started st)) =
                    persisted st ++ accepted)
    by (unfold commit_transaction; rewrite Hst, Hp; cbn; now rewrite app_nil_r).
  assert (Hcs : staged (commit_transaction st1 (sessions_started st)) = [])
    by (unfold commit_transaction; now rewrite Hst).
  assert (Habort : persisted (abort_transaction st1 (sessions_started st)) =
                   persisted st ++ accepted)
    by (unfold abort_transaction; now rewrite Hp).
  assert (Has : staged (abort_transaction st1 (sessions_started st)) = [])
    by (unfold abort_transaction; now rewrite Hst).
  destruct out1 as [[]|e].
  - intros [= <- _]. exists accepted. now repeat split.
  - destruct e; intros [= <- _]; exists accepted; now repeat split.
Qed.

End SaverFacts.

(** ** The saver on the scenarios *)

Lemma interleaving_none {A : Type} (l : list A) :
  interleaving [] l -> l = [].
Proof.
  inversion 1 as [|pre x t post rest _ Heq]; [reflexivity|].
  now destruct pre.
Qed.

Lemma interleaving_single {A : Type} (t l : list A) :
  interleaving [t] l -> l = t.
Proof.
  remember [t] as ls eqn:Hls. intros Hmerge. revert t Hls.
  induction Hmerge as [ls Hdone|pre x t0 post rest Hrest IH]; intros t Hls.
  - subst ls. now inversion Hdone.
  - destruct pre as [|p pre]; [|destruct pre; discriminate].
    cbn [app] in *. injection Hls as <- ->.
    now rewrite (IH t0 eq_refl).
Qed.

(** A coroutine that gathers nothing has one run, and a coroutine that
    gathers one task runs it and then takes its own step. *)
Lemma schedule_no_task then_ events :
  schedule (AwaitGather [] then_) events -> events = step_events then_.
Proof.
  inversion 1 as [? ? traces merged Htasks Hmerge]; subst.
  inversion Htasks; subst. now rewrite (interleaving_none _ Hmerge).
Qed.

Lemma schedule_single_task c then_ events :
  schedule (AwaitGather [c] then_) events ->
  exists t, schedule c t /\ events = t ++ step_events then_.
Proof.
  inversion 1 as [? ? traces merged Htasks Hmerge]; subst.
  inversion Htasks as [|? t ? ts Hc Hrest]; subst. inversion Hrest; subst.
  exists t. split; [exact Hc|]. now rewrite (interleaving_single _ _ Hmerge).
Qed.

(** The save of the book has one run only, the author's write and then the
    book's: whatever the event loop, [save] on the book does what it does
    with the in-order loop. *)
Lemma book_has_one_run (session : Session) (events : list Event) :
  schedule (@_save flat_layer a_book session) events ->
  events = in_order (@_save flat_layer a_book session).
Proof.
  rewrite (@save_unfold flat_layer a_book session).
  cbn [a_book sub_instances map snd].
  intros Hrun. apply schedule_single_task in Hrun as (t & Ht & ->).
  rewrite (@save_unfold flat_layer an_author session) in Ht.
  cbn [an_author sub_instances map] in Ht.
  apply schedule_no_task in Ht as ->. reflexivity.
Qed.

Lemma save_book_any_loop (driver : Driver) (loop : EventLoop) (st : Store) :
  faithful loop ->
  @save flat_layer driver loop st a_book =
  @save flat_layer driver in_order_loop st a_book.
Proof.
  intros Hloop. unfold save. cbn [start_session].
  now rewrite (book_has_one_run _ _ (Hloop _)).
Qed.

(** C1: saving a book whose own write the server refuses, after the write of
    its author has gone through.  [save] raises the server's error, and the
    author's write stays persisted: it was issued without the session, so
    the aborted transaction holds nothing and takes nothing back. *)
Theorem save_failure_keeps_child_write :
  exists st' : Store,
    @save flat_layer book_write_fails in_order_loop empty_store a_book =
      (st', Raise (PyMongoError "connection closed")) /\
    persisted st' = [@upsert_of flat_layer an_author (VInt 1)] /\
    staged st' = [].
Proof. eexists. split; [reflexivity|]. split; reflexivity. Qed.

(** C2: saving a book whose author has a modified field.  The call
    succeeds and both writes are persisted; the book comes back with an
    empty modified-fields set, its author with the set it had. *)
Theorem save_leaves_sub_instance_modified :
  exists (st' : Store) (saved : Instance),
    @save flat_layer accepting_driver in_order_loop empty_store a_book =
      (st', Ok saved) /\
    persisted st' = [@upsert_of flat_layer an_author (VInt 1);
                     @upsert_of flat_layer a_book (VInt 1)] /\
    __fields_modified__ saved = ∅ /\
    sub_instances saved = [("author", an_author)] /\
    __fields_modified__ an_author = {["name"]} /\
    __fields_modified__ an_author ≠ ∅.
Proof.
  eexists. eexists. split; [reflexivity|].
  split; [reflexivity|]. split; [reflexivity|]. split; [reflexivity|].
  split; [reflexivity|]. cbn [an_author __fields_modified__]. set_solver.
Qed.

(** C5: saving an instance whose model declares [isbn] as its primary key
    and that has a modified field.  The write is keyed by [instance.id],
    which this instance does not have: [_save] raises [AttributeError]
    where the upsert keyed by the primary key value should be, and nothing
    is written. *)
Theorem save_custom_primary_key_not_upserted :
  __primary_key__ (type_of an_isbn_book) = "isbn" /\
  getattr an_isbn_book (__primary_key__ (type_of an_isbn_book)) = Some (VStr "978-0") /\
  __fields_modified__ an_isbn_book ≠ ∅ /\
  @_save flat_layer an_isbn_book 0%nat =
    AwaitGather [] (StepRaise (AttributeError "id")) /\
  @save flat_layer accepting_driver in_order_loop empty_store an_isbn_book =
    (MkStore [] [] 1, Raise (AttributeError "id")).
Proof.
  split; [reflexivity|]. split; [reflexivity|].
  split; [cbn [an_isbn_book __fields_modified__]; set_solver|].
  split; reflexivity.
Qed.

(** ** What [_save] writes and what [save] raises *)

Section SaverContracts.
Context `{ModelLayer} `{Driver} `{EventLoop}.

(** An instance with no modified field gets no write of its own. *)
Lemma save_unmodified_issues_no_write (instance : Instance) (session : Session) :
  __fields_modified__ instance = ∅ ->
  step_events (own_step (_save instance session)) = [].
Proof.
  intros Hfm. rewrite save_own_step.
  destruct (decide _); [reflexivity|contradiction].
Qed.

(** An instance with modified fields and an [id] attribute gets exactly one
    write of its own: an upsert keyed by that [id], given no session, whose
    document is made of the modified fields other than the primary key. *)
Lemma save_modified_issues_upsert (instance : Instance) (session : Session) id :
  __fields_modified__ instance ≠ ∅ ->
  getattr instance "id" = Some id ->
  step_events (own_step (_save instance session)) =
    [EvUpdateOne (upsert_of instance id)] /\
  uc_upsert (upsert_of instance id) = true /\
  uc_filter (upsert_of instance id) = VDict [("_id", id)] /\
  exists include : gset string,
    uc_update (upsert_of instance id) = VDict [("$set", doc instance include)] /\
    forall field,
      field ∈ include <->
      field ∈ __fields_modified__ instance /\
      field ≠ __primary_key__ (type_of instance).
Proof.
  intros Hfm Hid. rewrite save_own_step, Hid.
  destruct (decide _); [contradiction|].
  split; [reflexivity|]. split; [reflexivity|]. split; [reflexivity|].
  eexists. split; [reflexivity|]. intros field. set_solver.
Qed.

(** C6, as the code has it: when the run of [_save] inside [save] ends with
    the driver's duplicate-key error and the violated key pattern holds
    [_id], [save] raises [DuplicatePrimaryKeyError] carrying the instance
    [save] was called with, whichever instance's write was refused; when
    the key pattern does not hold [_id], the driver's error is raised again
    as it is. *)
Theorem save_duplicate_key_carries_root (st st1 : Store) (instance : Instance)
    (details key_pattern : list (string * Value)) :
  play (start_transaction (fst (start_session st)) (snd (start_session st)))
       (run_order (_save instance (snd (start_session st)))) =
    (st1, Raise (PyMongoDuplicateKeyError details)) ->
  assoc "keyPattern" details = Some (VDict key_pattern) ->
  snd (save st instance) =
    Raise (if existsb (fun kv => String.eqb (fst kv) "_id") key_pattern
           then DuplicatePrimaryKeyError instance
           else PyMongoDuplicateKeyError details).
Proof.
  intros Hplay Hkp. unfold save. cbn [start_session fst snd] in *.
  rewrite Hplay. cbn [snd]. unfold on_duplicate_key. rewrite Hkp.
  cbn [py_in]. now destruct (existsb _ key_pattern).
Qed.

End SaverContracts.

(** A book whose title is taken: the uniqueness violation is on [title],
    and [save] raises the driver's error as it is. *)
Lemma save_duplicate_key_carries_root_witness :
  snd (@save flat_layer book_title_taken in_order_loop empty_store a_book) =
  Raise (PyMongoDuplicateKeyError [("keyPattern", VDict [("title", VInt 1)])]).
Proof.
  apply (@save_duplicate_key_carries_root flat_layer book_title_taken in_order_loop
           empty_store
           (MkStore [@upsert_of flat_layer an_author (VInt 1)] [] 1)
           a_book
           [("keyPattern", VDict [("title", VInt 1)])]
           [("title", VInt 1)]).
  - reflexivity.
  - reflexivity.
Defined.

(** C6 as stated fails: the server refuses the write of the author, a
    sub-instance of the book being saved, for a duplicate [_id]; the error
    [save] raises carries the book, not the author whose write was
    refused. *)
Lemma duplicate_key_names_root_not_offender :
  own_step (@_save flat_layer an_author 0%nat) =
    StepUpdateOne (@upsert_of flat_layer an_author (VInt 1)) /\
  @server_rejects author_id_taken (MkStore [] [] 1)
     (@upsert_of flat_layer an_author (VInt 1)) =
    Some (PyMongoDuplicateKeyError [("keyPattern", VDict [("_id", VInt 1)])]) /\
  @server_rejects author_id_taken (MkStore [] [] 1)
     (@upsert_of flat_layer a_book (VInt 1)) = None /\
  snd (@save flat_layer author_id_taken in_order_loop empty_store a_book) =
    Raise (DuplicatePrimaryKeyError a_book) /\
  snd (@save flat_layer author_id_taken in_order_loop empty_store a_book) <>
    Raise (DuplicatePrimaryKeyError an_author).
Proof.
  split; [reflexivity|]. split; [reflexivity|]. split; [reflexivity|].
  split; [reflexivity|].
  change (snd (@save flat_layer author_id_taken in_order_loop empty_store a_book))
    with (@Raise Instance (DuplicatePrimaryKeyError a_book)).
  intros Heq. injection Heq as Heq. discriminate Heq.
Qed.

(** ** Ordering of the writes of one [save] *)

Lemma interleaving_Permutation {A : Type} (ls : list (list A)) (l : list A) :
  interleaving ls l -> l ≡ₚ concat ls.
Proof.
  induction 1 as [ls Hdone|pre x t post rest Hrest IH].
  - induction Hdone as [|l ls -> _ IHls]; [reflexivity|exact IHls].
  - rewrite IH, !concat_app. cbn [concat].
    rewrite <- app_comm_cons. apply Permutation_middle.
Qed.

Lemma interleaving_sublist {A : Type} (ls : list (list A)) (l : list A) :
  interleaving ls l -> forall t, t ∈ ls -> t `sublist_of` l.
Proof.
  induction 1 as [ls Hdone|pre x t post rest Hrest IH]; intros t0 Hin.
  - rewrite Forall_forall in Hdone. rewrite (Hdone t0 Hin). constructor.
  - apply elem_of_app in Hin as [Hin|Hin].
    + apply sublist_cons, IH, elem_of_app. now left.
    + apply elem_of_cons in Hin as [->|Hin].
      * apply sublist_skip, IH, elem_of_app. right. left.
      * apply sublist_cons, IH, elem_of_app. right. now right.
Qed.

(** Which task comes first in the list of gathered tasks does not matter to
    the interleavings. *)
Lemma interleaving_permute {A : Type} (ls : list (list A)) (l : list A) :
  interleaving ls l -> forall ls', ls ≡ₚ ls' -> interleaving ls' l.
Proof.
  induction 1 as [ls Hdone|pre x t post rest Hrest IH]; intros ls' Hperm.
  - constructor. now rewrite <- Hperm.
  - assert (Hin : (x :: t) ∈ ls').
    { rewrite <- Hperm. apply elem_of_app. right. left. }
    apply list_elem_of_split in Hin as (pre' & post' & ->).
    apply interleaving_step, IH.
    apply Permutation_elt. eapply Permutation_app_inv. exact Hperm.
Qed.

Lemma concat_Permutation_Forall2 {A : Type} (ls ls' : list (list A)) :
  Forall2 (fun l l' => l ≡ₚ l') ls ls' -> concat ls ≡ₚ concat ls'.
Proof.
  induction 1 as [|l l' ls ls' Hl Hls IH]; [reflexivity|].
  cbn [concat]. now rewrite Hl, IH.
Qed.

(** Every run of a coroutine holds the same events as its in-order run. *)
Lemma schedule_Permutation (c : Coro) (events : list Event) :
  schedule c events -> events ≡ₚ in_order c.
Proof.
  induction 1 as [save_tasks then_ traces merged Htasks Hmerge]
    using schedule_tree_ind.
  rewrite in_order_gather. apply Permutation_app_tail.
  rewrite (interleaving_Permutation _ _ Hmerge).
  apply concat_Permutation_Forall2. clear Hmerge.
  induction Htasks as [|c t cs ts [_ Hct] _ IH]; cbn [map];
    [now apply Forall2_nil|apply Forall2_cons; split; assumption].
Qed.

Lemma Forall2_map_left {A B C : Type} (P : B -> C -> Prop) (f : A -> B) (l : list A) :
  forall k, Forall2 P (map f l) k <-> Forall2 (fun x y => P (f x) y) l k.
Proof.
  induction l as [|x l IH]; intros k; cbn [map].
  - split; intros Hk; inversion Hk; subst; constructor.
  - split; intros Hk; inversion Hk as [|? y ? k' Hxy Hrest]; subst;
      constructor; try assumption; now apply IH.
Qed.

Section SaveOrdering.
Context `{ModelLayer}.

(** A run of [_save] on an instance is made of one run of [_save] per
    sub-instance, interleaved, followed by the instance's own step. *)
Lemma save_schedule_inv (instance : Instance) (session : Session) events :
  schedule (_save instance session) events ->
  exists traces merged,
    Forall2 (fun sub t => schedule (_save (snd sub) session) t)
            (sub_instances instance) traces /\
    interleaving traces merged /\
    events = merged ++ step_events (own_step (_save instance session)).
Proof.
  rewrite save_unfold at 1.
  generalize (own_step (_save instance session)). intros k Hrun.
  inversion Hrun as [tasks then_ traces merged Htasks Hmerge Heq1 Heq2]; subst.
  exists traces, merged. split; [|now split].
  exact (proj1 (Forall2_map_left schedule _ _ _) Htasks).
Qed.

Lemma save_schedule_intro (instance : Instance) (session : Session) traces merged :
  Forall2 (fun sub t => schedule (_save (snd sub) session) t)
          (sub_instances instance) traces ->
  interleaving traces merged ->
  schedule (_save instance session)
           (merged ++ step_events (own_step (_save instance session))).
Proof.
  intros Htasks Hmerge. rewrite save_unfold at 1.
  apply (schedule_gather _ _ traces); [|exact Hmerge].
  exact (proj2 (Forall2_map_left schedule _ _ _) Htasks).
Qed.

(** C8: in every run of one [save], for every instance of the tree being
    saved, the run of that instance's [_save] sits inside the whole run in
    order, and in it the instance's own write comes last, after all the
    events of the subtrees of its sub-instances; and the sub-instances'
    saves may complete in any order: whatever runs the sub-instances have,
    putting them one after the other in any order and the instance's own
    write after them is a run of the instance's [_save]. *)
Theorem children_complete_before_parent (instance : Instance) (session : Session)
    (events : list Event) :
  schedule (_save instance session) events ->
  (forall path parent,
      node_at path instance = Some parent ->
      exists run before,
        run `sublist_of` events /\
        schedule (_save parent session) run /\
        run = before ++ step_events (own_step (_save parent session)) /\
        before ≡ₚ concat (map (fun sub => in_order (_save (snd sub) session))
                              (sub_instances parent))) /\
  (forall traces order,
      Forall2 (fun sub t => schedule (_save (snd sub) session) t)
              (sub_instances instance) traces ->
      order ≡ₚ traces ->
      schedule (_save instance session)
               (concat order ++ step_events (own_step (_save instance session)))).
Proof.
  intros Hrun. split.
  - intros path. revert instance events Hrun.
    induction path as [|i path IH]; intros instance events Hrun parent Hnode.
    + injection Hnode as <-.
      destruct (save_schedule_inv _ _ _ Hrun) as (traces & merged & Htasks & Hmerge & ->).
      exists (merged ++ step_events (own_step (_save instance session))), merged.
      split; [reflexivity|]. split; [exact Hrun|]. split; [reflexivity|].
      rewrite (interleaving_Permutation _ _ Hmerge).
      apply concat_Permutation_Forall2. clear Hrun Hmerge.
      induction Htasks as [|sub t subs ts Hsub _ IHsubs]; cbn [map];
        [now apply Forall2_nil|apply Forall2_cons; split; [|exact IHsubs]].
      now apply schedule_Permutation.
    + cbn [node_at] in Hnode.
      destruct (sub_instances instance !! i) as [[name sub]|] eqn:Hsub;
        [|discriminate].
      destruct (save_schedule_inv _ _ _ Hrun) as (traces & merged & Htasks & Hmerge & ->).
      destruct (Forall2_lookup_l _ _ _ _ _ Htasks Hsub) as (t & Ht & Hsched).
      cbn [snd] in Hsched.
      destruct (IH sub t Hsched parent Hnode) as (run & before & Hsub_run & Hrest).
      exists run, before. split; [|exact Hrest].
      apply sublist_inserts_r. etransitivity; [exact Hsub_run|].
      apply (interleaving_sublist _ _ Hmerge).
      now apply list_elem_of_lookup_2 in Ht.
  - intros traces order Htasks Hperm.
    apply (save_schedule_intro instance session traces); [exact Htasks|].
    apply (interleaving_permute order); [apply interleaving_concat|exact Hperm].
Qed.

End SaveOrdering.

(** The edition, its author and its publisher: the in-order run of the
    save, and in it the run of each instance of the tree. *)
Lemma children_complete_before_parent_witness :
  schedule (@_save flat_layer an_edition 0%nat)
           (in_order (@_save flat_layer an_edition 0%nat)) /\
  forall path parent,
    node_at path an_edition = Some parent ->
    exists run before,
      run `sublist_of` in_order (@_save flat_layer an_edition 0%nat) /\
      schedule (@_save flat_layer parent 0%nat) run /\
      run = before ++ step_events (own_step (@_save flat_layer parent 0%nat)) /\
      before ≡ₚ concat (map (fun sub => in_order (@_save flat_layer (snd sub) 0%nat))
                            (sub_instances parent)).
Proof.
  split; [apply in_order_schedule|].
  apply (@children_complete_before_parent flat_layer an_edition 0%nat
           (in_order (@_save flat_layer an_edition 0%nat))).
  apply in_order_schedule.
Defined.

(** The author's write before the publisher's, or the publisher's before the
    author's: both are runs of the save of the edition, and in both the
    edition's write is last. *)
Example edition_siblings_in_either_order :
  schedule (@_save flat_layer an_edition 0%nat)
           [EvUpdateOne (@upsert_of flat_layer an_author (VInt 1));
            EvUpdateOne (@upsert_of flat_layer a_publisher (VInt 7));
            EvUpdateOne (@upsert_of flat_layer an_edition (VInt 3))] /\
  schedule (@_save flat_layer an_edition 0%nat)
           [EvUpdateOne (@upsert_of flat_layer a_publisher (VInt 7));
            EvUpdateOne (@upsert_of flat_layer an_author (VInt 1));
            EvUpdateOne (@upsert_of flat_layer an_edition (VInt 3))].
Proof.
  pose proof (in_order_schedule (@_save flat_layer an_author 0%nat)) as Ha.
  pose proof (in_order_schedule (@_save flat_layer a_publisher 0%nat)) as Hp.
  assert (Htasks :
            Forall2 (fun sub t => schedule (@_save flat_layer (snd sub) 0%nat) t)
                    (sub_instances an_edition)
                    [in_order (@_save flat_layer an_author 0%nat);
                     in_order (@_save flat_layer a_publisher 0%nat)])
    by (repeat constructor; assumption).
  split.
  - exact (save_schedule_intro an_edition 0%nat _ _ Htasks (interleaving_concat _)).
  - exact (save_schedule_intro an_edition 0%nat _
             (concat [in_order (@_save flat_layer a_publisher 0%nat);
                      in_order (@_save flat_layer an_author 0%nat)])
             Htasks
             (interleaving_permute _ _ (interleaving_concat _) _ (perm_swap _ _ _))).
Qed.

(** * Further properties *)

(** ** Consuming a cursor: parsing, failures and laziness *)

Section CursorMore.
Context `{ModelLayer}.
Import AIOCursor.

(** The parse loop succeeds exactly when every document parses, and then
    appends their instances in order. *)
Lemma parse_all_Forall2 (self : t) (raw_docs : list Value) :
  forall instances out,
    parse_all self raw_docs instances = Ok out <->
    exists parsed,
      out = instances ++ parsed /\
      Forall2 (fun raw_doc instance => _parse_document self raw_doc = Ok instance)
              raw_docs parsed.
Proof.
  induction raw_docs as [|raw_doc rest IH]; intros instances out; cbn [parse_all].
  - split.
    + intros [= <-]. exists []. rewrite app_nil_r. split; [reflexivity|constructor].
    + intros (parsed & -> & Hall). inversion Hall; subst. now rewrite app_nil_r.
  - destruct (_parse_document self raw_doc) as [instance|e] eqn:Hparse.
    + rewrite IH. split.
      * intros (parsed & -> & Hall). exists (instance :: parsed).
        rewrite <- app_assoc. split; [reflexivity|]. now constructor.
      * intros (parsed & -> & Hall).
        inversion Hall as [|? first ? others Hfirst Hothers]; subst.
        rewrite Hparse in Hfirst. injection Hfirst as <-.
        exists others. rewrite <- app_assoc. now split.
    + split; [discriminate|].
      intros (parsed & _ & Hall).
      inversion Hall as [|? first ? others Hfirst Hothers]; subst.
      rewrite Hparse in Hfirst. discriminate.
Qed.

(** Leaving an [async for] and resuming the same generator later makes no
    difference to what the generator does. *)
Lemma async_for_resume (k : nat) :
  forall self g seen self1 g1 seen1,
    async_for k self g seen = (self1, g1, seen1, Abandoned) ->
    forall n, async_for (k + n) self g seen = async_for n self1 g1 seen1.
Proof.
  induction k as [|k IH]; intros self g seen self1 g1 seen1 Hrun n.
  - now injection Hrun as <- <- <-.
  - cbn [async_for Nat.add] in *.
    destruct (__anext__ self g) as [[self' g'] [instance| |e]];
      [|discriminate|discriminate].
    now apply IH.
Qed.

(** X1: an [await] of a cursor that is not materialized returns one instance
    per document left in the stream, in the order of the stream, each the
    parse of its document with an empty modified-fields set; it empties the
    stream and caches what it returns. *)
Theorem await_parses_every_document (cursor cursor1 : t) (instances : list Instance) :
  _results cursor = None ->
  __await__ cursor = (cursor1, Ok instances) ->
  Forall2 (fun raw_doc instance =>
             exists parsed,
               parse_doc (_model cursor) raw_doc = Ok parsed /\
               instance = clear_fields_modified parsed)
          (mc_pending (_motor_cursor cursor)) instances /\
  Forall (fun instance => __fields_modified__ instance = ∅) instances /\
  mc_pending (_motor_cursor cursor1) = [] /\
  mc_fetched (_motor_cursor cursor1) = stream_total cursor /\
  _results cursor1 = Some instances.
Proof.
  destruct cursor as [m [coll pipe pending fetched] cached].
  cbn [_results]. intros ->. unfold __await__, stream_total.
  cbn [_results to_list _motor_cursor _model mc_pending mc_fetched mc_collection
       mc_pipeline].
  destruct (parse_all _ pending []) as [parsed|e] eqn:Hparse; [|discriminate].
  intros [= <- <-].
  apply parse_all_Forall2 in Hparse as (parsed' & -> & Hall). cbn [app].
  split; [|split; [|now repeat split]].
  - clear -Hall. induction Hall as [|raw_doc instance docs others Hone _ IH];
      constructor; [|exact IH].
    unfold _parse_document in Hone. cbn [_model] in Hone.
    destruct (parse_doc m raw_doc) as [parsed|e]; [|discriminate].
    injection Hone as <-. now exists parsed.
  - clear -Hall. induction Hall as [|raw_doc instance docs others Hone _ IH];
      constructor; [|exact IH].
    unfold _parse_document in Hone.
    destruct (parse_doc _ raw_doc); [|discriminate]. now injection Hone as <-.
Qed.

(** X2: when a document of the stream does not parse, [await] raises the
    parse error with the whole stream already taken and nothing cached: the
    next [await] of the same cursor returns the empty list and caches it. *)
Theorem failed_await_drains_stream (cursor : t) (e : PyErr) :
  _results cursor = None ->
  parse_all cursor (mc_pending (_motor_cursor cursor)) [] = Raise e ->
  exists cursor1 cursor2 : t,
    __await__ cursor = (cursor1, Raise e) /\
    _results cursor1 = None /\
    mc_pending (_motor_cursor cursor1) = [] /\
    __await__ cursor1 = (cursor2, Ok []) /\
    _results cursor2 = Some [].
Proof.
  destruct cursor as [m [coll pipe pending fetched] cached].
  cbn [_results _motor_cursor mc_pending]. intros -> Hparse.
  eexists. eexists. unfold __await__ at 1.
  cbn [_results to_list _motor_cursor _model mc_pending mc_fetched mc_collection
       mc_pipeline].
  rewrite (parse_all_model _ (Make m (MkMotorCursor coll pipe pending fetched) None))
    by reflexivity.
  rewrite Hparse.
  split; [reflexivity|]. split; [reflexivity|]. split; [reflexivity|].
  split; reflexivity.
Qed.

(** A generator that starts on a cursor without cache goes straight to its
    streaming loop. *)
Lemma created_as_streaming (self : t) (pulls : nat) :
  _results self = None ->
  async_for (S pulls) self Created [] = async_for (S pulls) self (Streaming []) [].
Proof. intros Hres. cbn [async_for __anext__]. now rewrite Hres. Qed.

(** X3: when a document of the stream does not parse, an [async for] hands
    out the instances of the documents before it and then raises the parse
    error; the cursor stays without cache and its stream stands right after
    the document that failed, which no later consumption sees again. *)
Theorem failed_iteration_skips_document (cursor : t) (good rest : list Value)
    (bad : Value) (yielded : list Instance) (e : PyErr) (pulls : nat) :
  _results cursor = None ->
  mc_pending (_motor_cursor cursor) = good ++ bad :: rest ->
  parse_all cursor good [] = Ok yielded ->
  _parse_document cursor bad = Raise e ->
  (length good < pulls)%nat ->
  exists cursor1 : t,
    async_for pulls cursor (__aiter__ cursor) [] =
      (cursor1, Finished, yielded, Failed e) /\
    _results cursor1 = None /\
    mc_pending (_motor_cursor cursor1) = rest /\
    mc_fetched (_motor_cursor cursor1) =
      (mc_fetched (_motor_cursor cursor) + length good + 1)%nat.
Proof.
  destruct cursor as [m [coll pipe pending fetched] cached].
  cbn [_results _motor_cursor mc_pending mc_fetched].
  intros -> -> Hgood Hbad Hlt.
  exists (Make m (MkMotorCursor coll pipe rest (fetched + length good + 1)) None).
  split; [|now repeat split].
  unfold __aiter__.
  destruct pulls as [|pulls]; [lia|].
  rewrite created_as_streaming by reflexivity.
  replace (S pulls) with (length good + S (pulls - length good))%nat by lia.
  rewrite (async_for_resume (length good) _ _ _
             (Make m (MkMotorCursor coll pipe (drop (length good) (good ++ bad :: rest))
                                    (fetched + length good)) None)
             (Streaming yielded) yielded).
  - rewrite drop_app_length.
    cbn [async_for __anext__]. unfold stream.
    cbn [motor_next _motor_cursor mc_pending _model _results mc_collection
         mc_pipeline mc_fetched].
    rewrite (parse_document_model _
               (Make m (MkMotorCursor coll pipe (good ++ bad :: rest) fetched) None))
      by reflexivity.
    rewrite Hbad. repeat f_equal. lia.
  - apply stream_abandoned.
    + rewrite length_app. lia.
    + now rewrite take_app_length.
Qed.

(** X4: on a cursor that is not materialized and whose documents all parse,
    [await] and an [async for] that runs to the end give the same sequence
    of instances and leave the cursor in the same state. *)
Theorem await_and_iteration_agree (cursor : t) (instances : list Instance)
    (pulls : nat) :
  _results cursor = None ->
  parse_all cursor (mc_pending (_motor_cursor cursor)) [] = Ok instances ->
  (length (mc_pending (_motor_cursor cursor)) < pulls)%nat ->
  exists cursor1 : t,
    consume AwaitAll cursor = (cursor1, Complete instances) /\
    consume (Iterate pulls) cursor = (cursor1, Complete instances) /\
    _results cursor1 = Some instances.
Proof.
  destruct cursor as [m [coll pipe pending fetched] cached].
  cbn [_results _motor_cursor mc_pending]. intros -> Hparse Hlt.
  exists (Make m (MkMotorCursor coll pipe [] (fetched + length pending)) (Some instances)).
  split; [|split; [|reflexivity]].
  - cbn [consume]. unfold __await__.
    cbn [_results to_list _motor_cursor _model mc_pending mc_fetched mc_collection
         mc_pipeline].
    rewrite (parse_all_model _ (Make m (MkMotorCursor coll pipe pending fetched) None))
      by reflexivity.
    now rewrite Hparse.
  - cbn [consume]. unfold __aiter__.
    destruct pulls as [|pulls]; [lia|].
    rewrite created_as_streaming by reflexivity.
    replace (S pulls) with (length pending + S (pulls - length pending))%nat by lia.
    rewrite (async_for_resume (length pending) _ _ _
               (Make m (MkMotorCursor coll pipe (drop (length pending) pending)
                                      (fetched + length pending)) None)
               (Streaming instances) instances).
    + rewrite drop_all. reflexivity.
    + apply stream_abandoned; [lia|]. now rewrite firstn_all.
Qed.

(** The replay loop, left after [pulls] items. *)
Lemma replay_abandoned (self : t) :
  forall rest pulls seen,
    (pulls <= length rest)%nat ->
    async_for pulls self (Replaying rest) seen =
    (self, Replaying (drop pulls rest), seen ++ take pulls rest, Abandoned).
Proof.
  induction rest as [|res rest IH]; intros pulls seen Hle.
  - destruct pulls; [|simpl in Hle; lia]. simpl. now rewrite app_nil_r.
  - destruct pulls as [|pulls]; [simpl; now rewrite app_nil_r|].
    cbn [async_for __anext__ replay]. simpl in Hle.
    rewrite IH by lia. cbn [drop take]. now rewrite <- app_assoc.
Qed.

(** X5: once a cursor is materialized, no consumption changes it or reads
    its stream: [await] returns the cache, an [async for] that runs to the
    end hands out the cache, and one that is left after [pulls] items has
    handed out the first [pulls] instances of the cache. *)
Theorem materialized_cursor_is_frozen (cursor : t) (cache : list Instance)
    (how : Consumption) :
  _results cursor = Some cache ->
  consume how cursor =
    (cursor,
     match how with
     | AwaitAll => Complete cache
     | Iterate pulls =>
         if decide (length cache < pulls)%nat then Complete cache
         else Partial (take pulls cache)
     end).
Proof.
  intros Hres. destruct how as [|pulls]; cbn [consume].
  - now rewrite (await_cached cursor cache Hres).
  - unfold __aiter__. destruct (decide (length cache < pulls)%nat) as [Hlt|Hge].
    + now rewrite (iterate_cached cursor cache pulls Hres Hlt).
    + destruct pulls as [|pulls]; [reflexivity|].
      cbn [async_for __anext__]. rewrite Hres.
      destruct cache as [|res rest]; [simpl in Hge; lia|].
      cbn [replay]. simpl in Hge.
      now rewrite replay_abandoned by lia.
Qed.

(** X6: a generator left suspended overwrites the cache when it is resumed.
    After an [async for] left after [k] items and an [await] that cached
    the instances of the remaining documents, resuming the suspended
    generator finds the stream empty and stores its own list: the cache now
    holds the [k] instances handed out first, and the next [await] returns
    them instead of what the previous [await] returned. *)
Theorem resumed_generator_overwrites_cache (cursor : t) (k pulls : nat)
    (yielded remaining : list Instance) :
  let pending := mc_pending (_motor_cursor cursor) in
  _results cursor = None ->
  (0 < k <= length pending)%nat ->
  (0 < pulls)%nat ->
  parse_all cursor (take k pending) [] = Ok yielded ->
  parse_all cursor (drop k pending) [] = Ok remaining ->
  exists cursor1 cursor2 cursor3 : t,
    async_for k cursor (__aiter__ cursor) [] =
      (cursor1, Streaming yielded, yielded, Abandoned) /\
    __await__ cursor1 = (cursor2, Ok remaining) /\
    _results cursor2 = Some remaining /\
    async_for pulls cursor2 (Streaming yielded) yielded =
      (cursor3, Finished, yielded, Exhausted) /\
    _results cursor3 = Some yielded /\
    __await__ cursor3 = (cursor3, Ok yielded).
Proof.
  destruct cursor as [m [coll pipe pending fetched] cached].
  cbn [_motor_cursor mc_pending _results]. intros -> [Hpos Hle] Hpulls Hy Hr.
  destruct k as [|k]; [lia|]. destruct pulls as [|pulls]; [lia|].
  exists (Make m (MkMotorCursor coll pipe (drop (S k) pending) (fetched + S k)) None).
  exists (Make m (MkMotorCursor coll pipe []
                    (fetched + S k + length (drop (S k) pending))) (Some remaining)).
  exists (Make m (MkMotorCursor coll pipe []
                    (fetched + S k + length (drop (S k) pending))) (Some yielded)).
  split.
  { unfold __aiter__. rewrite created_as_streaming by reflexivity.
    now apply stream_abandoned. }
  split.
  { unfold __await__.
    cbn [_results to_list _motor_cursor _model mc_pending mc_fetched
         mc_collection mc_pipeline].
    rewrite (parse_all_model _ (Make m (MkMotorCursor coll pipe pending fetched) None))
      by reflexivity.
    now rewrite Hr. }
  repeat split.
Qed.

(** One resumption of the generator takes at most one document from the
    stream and hands out at most one instance. *)
Lemma anext_one_document (self self1 : t) g g1 resumed :
  __anext__ self g = (self1, g1, resumed) ->
  (mc_fetched (_motor_cursor self1) <= S (mc_fetched (_motor_cursor self)))%nat /\
  (mc_fetched (_motor_cursor self) <= mc_fetched (_motor_cursor self1))%nat.
Proof.
  assert (Hreplay : forall rest,
             replay self rest = (self1, g1, resumed) -> self1 = self)
    by (intros [|? ?]; cbn [replay]; now intros [= <- _ _]).
  assert (Hstream : forall results,
             stream self results = (self1, g1, resumed) ->
             (mc_fetched (_motor_cursor self1) <= S (mc_fetched (_motor_cursor self)))%nat /\
             (mc_fetched (_motor_cursor self) <= mc_fetched (_motor_cursor self1))%nat).
  { intros results. unfold stream, motor_next.
    destruct self as [m [coll pipe pending fetched] res]. simpl.
    destruct pending as [|raw_doc pending].
    - intros [= <- _ _]. simpl. lia.
    - destruct (_parse_document _ raw_doc); intros [= <- _ _]; simpl; lia. }
  destruct g as [|rest|results|]; cbn [__anext__].
  - destruct (_results self); [intros Heq; apply Hreplay in Heq as ->; lia|apply Hstream].
  - intros Heq; apply Hreplay in Heq as ->; lia.
  - apply Hstream.
  - intros [= <- _ _]. lia.
Qed.

(** X7: iteration is lazy.  An [async for] whose body asks for at most
    [pulls] items takes at most [pulls] documents from the stream and hands
    out at most [pulls] instances, on top of those seen before; a loop that
    is left has been handed exactly [pulls] of them. *)
Theorem iteration_is_lazy (pulls : nat) :
  forall (self self1 : t) g g1 (seen seen1 : list Instance) (how_ended : LoopEnd),
    async_for pulls self g seen = (self1, g1, seen1, how_ended) ->
    (mc_fetched (_motor_cursor self1) <= mc_fetched (_motor_cursor self) + pulls)%nat /\
    seen `prefix_of` seen1 /\
    (length seen1 <= length seen + pulls)%nat /\
    (how_ended = Abandoned -> length seen1 = (length seen + pulls)%nat).
Proof.
  induction pulls as [|pulls IH]; intros self self1 g g1 seen seen1 how_ended Hrun.
  - injection Hrun as <- <- <- <-.
    split; [lia|]. split; [reflexivity|]. split; [lia|intros _; lia].
  - cbn [async_for] in Hrun.
    destruct (__anext__ self g) as [[self' g'] [instance| |e]] eqn:Hnext;
      apply anext_one_document in Hnext as [Hup Hdown].
    + apply IH in Hrun as (Hf & Hpre & Hlen & Hab).
      rewrite length_app in Hlen, Hab. cbn [length] in Hlen, Hab.
      split; [lia|]. split; [|split; [lia|intros Hend; rewrite (Hab Hend); lia]].
      etransitivity; [|exact Hpre]. now apply prefix_app_r.
    + injection Hrun as <- <- <- <-.
      split; [lia|]. split; [reflexivity|]. split; [lia|discriminate].
    + injection Hrun as <- <- <- <-.
      split; [lia|]. split; [reflexivity|]. split; [lia|discriminate].
Qed.

End CursorMore.

(** The mixed cursor: the [await] that fails and the one that follows. *)
Lemma failed_await_drains_stream_witness :
  exists cursor1 cursor2 : AIOCursor.t,
    @AIOCursor.__await__ flat_layer mixed_cursor =
      (cursor1, Raise (ValidationError (VInt 13))) /\
    AIOCursor._results cursor1 = None /\
    mc_pending (AIOCursor._motor_cursor cursor1) = [] /\
    @AIOCursor.__await__ flat_layer cursor1 = (cursor2, Ok []) /\
    AIOCursor._results cursor2 = Some [].
Proof.
  apply (@failed_await_drains_stream flat_layer mixed_cursor); reflexivity.
Defined.

(** The three authors, awaited. *)
Lemma await_parses_every_document_witness :
  Forall (fun instance => __fields_modified__ instance = ∅)
         (match snd (@AIOCursor.__await__ flat_layer authors_cursor) with
          | Ok instances => instances
          | Raise _ => []
          end).
Proof.
  apply (@await_parses_every_document flat_layer authors_cursor
           (fst (@AIOCursor.__await__ flat_layer authors_cursor))).
  - reflexivity.
  - reflexivity.
Defined.

(** The mixed cursor, iterated: the first author, then the parse error; the
    stream is left on the third document. *)
Lemma failed_iteration_skips_document_witness :
  exists cursor1 : AIOCursor.t,
    @AIOCursor.async_for flat_layer 5 mixed_cursor
       (AIOCursor.__aiter__ mixed_cursor) [] =
      (cursor1, AIOCursor.Finished,
       [MkInstance Author [("id", VInt 1); ("name", VStr "A")] [] ∅],
       AIOCursor.Failed (ValidationError (VInt 13))) /\
    AIOCursor._results cursor1 = None /\
    mc_pending (AIOCursor._motor_cursor cursor1) =
      [VDict [("id", VInt 3); ("name", VStr "C")]] /\
    mc_fetched (AIOCursor._motor_cursor cursor1) = 2%nat.
Proof.
  apply (@failed_iteration_skips_document flat_layer mixed_cursor
           [VDict [("id", VInt 1); ("name", VStr "A")]]
           [VDict [("id", VInt 3); ("name", VStr "C")]]
           (VInt 13)); try reflexivity.
  simpl. lia.
Defined.

(** The three authors, awaited or iterated over. *)
Lemma await_and_iteration_agree_witness :
  exists cursor1 : AIOCursor.t,
    @consume flat_layer AwaitAll authors_cursor =
      (cursor1, Complete (match snd (@AIOCursor.__await__ flat_layer authors_cursor) with
                          | Ok instances => instances
                          | Raise _ => []
                          end)) /\
    @consume flat_layer (Iterate 4) authors_cursor =
      (cursor1, Complete (match snd (@AIOCursor.__await__ flat_layer authors_cursor) with
                          | Ok instances => instances
                          | Raise _ => []
                          end)) /\
    AIOCursor._results cursor1 =
      Some (match snd (@AIOCursor.__await__ flat_layer authors_cursor) with
            | Ok instances => instances
            | Raise _ => []
            end).
Proof.
  apply (@await_and_iteration_agree flat_layer authors_cursor); try reflexivity.
  simpl. lia.
Defined.

(** The materialized authors, iterated over and left after two of them. *)
Lemma materialized_cursor_is_frozen_witness :
  exists cache : list Instance,
    AIOCursor._results authors_materialized = Some cache /\
    @consume flat_layer (Iterate 2) authors_materialized =
      (authors_materialized, Partial (take 2 cache)).
Proof.
  pose (cache := match AIOCursor._results authors_materialized with
                 | Some instances => instances
                 | None => []
                 end).
  exists cache. split; [reflexivity|].
  rewrite (@materialized_cursor_is_frozen flat_layer authors_materialized cache
             (Iterate 2) eq_refl).
  destruct (decide _) as [Hlt|_]; [|reflexivity].
  exfalso. vm_compute in Hlt. lia.
Defined.

(** The three authors: one handed out, the other two awaited, and the
    generator resumed. *)
Lemma resumed_generator_overwrites_cache_witness :
  exists (yielded remaining : list Instance) (cursor1 cursor2 cursor3 : AIOCursor.t),
    length yielded = 1%nat /\ length remaining = 2%nat /\
    @AIOCursor.async_for flat_layer 1 authors_cursor
       (AIOCursor.__aiter__ authors_cursor) [] =
      (cursor1, AIOCursor.Streaming yielded, yielded, AIOCursor.Abandoned) /\
    @AIOCursor.__await__ flat_layer cursor1 = (cursor2, Ok remaining) /\
    AIOCursor._results cursor2 = Some remaining /\
    @AIOCursor.async_for flat_layer 1 cursor2 (AIOCursor.Streaming yielded) yielded =
      (cursor3, AIOCursor.Finished, yielded, AIOCursor.Exhausted) /\
    AIOCursor._results cursor3 = Some yielded /\
    @AIOCursor.__await__ flat_layer cursor3 = (cursor3, Ok yielded).
Proof.
  pose (yielded :=
          match @AIOCursor.parse_all flat_layer authors_cursor (take 1 author_docs) [] with
          | Ok instances => instances
          | Raise _ => []
          end).
  pose (remaining :=
          match @AIOCursor.parse_all flat_layer authors_cursor (drop 1 author_docs) [] with
          | Ok instances => instances
          | Raise _ => []
          end).
  exists yielded, remaining.
  destruct (@resumed_generator_overwrites_cache flat_layer authors_cursor 1 1
              yielded remaining) as (cursor1 & cursor2 & cursor3 & Hrun);
    [reflexivity|simpl; lia|lia|reflexivity|reflexivity|].
  exists cursor1, cursor2, cursor3.
  split; [reflexivity|]. split; [reflexivity|]. exact Hrun.
Defined.

(** Two pulls on the three authors. *)
Lemma iteration_is_lazy_witness :
  (mc_fetched (AIOCursor._motor_cursor
                 (fst (fst (fst (@AIOCursor.async_for flat_layer 2 authors_cursor
                                   AIOCursor.Created [])))))
   <= mc_fetched (AIOCursor._motor_cursor authors_cursor) + 2)%nat.
Proof.
  destruct (@AIOCursor.async_for flat_layer 2 authors_cursor AIOCursor.Created [])
    as [[[self1 g1] seen1] how_ended] eqn:Hrun.
  exact (proj1 (@iteration_is_lazy flat_layer 2 _ _ _ _ _ _ _ Hrun)).
Defined.

(** ** What a save writes *)

Section SaverMore.
Context `{ModelLayer} `{Driver} `{EventLoop}.

(** X8: [_save] makes no use of the session it is given: the coroutine it
    builds for an instance is the same whatever the session. *)
Theorem save_ignores_session (instance : Instance) (session session' : Session) :
  _save instance session = _save instance session'.
Proof.
  induction instance as [t a subs fm IH] using Instance_tree_ind.
  rewrite (save_unfold _ session), (save_unfold _ session').
  rewrite !save_own_step. f_equal.
  cbn [sub_instances].
  induction IH as [|[name sub] subs Hsub _ IHsubs]; [reflexivity|].
  cbn [map snd] in *. now rewrite Hsub, IHsubs.
Qed.

Lemma own_events_step (instance : Instance) (session : Session) :
  step_events (own_step (_save instance session)) = own_events instance.
Proof.
  rewrite save_own_step. unfold own_events.
  destruct (decide _); [reflexivity|].
  now destruct (getattr instance "id").
Qed.

(** The in-order run of a save visits the instances of the tree one by
    one. *)
Lemma in_order_save (instance : Instance) (session : Session) :
  in_order (_save instance session) = flat_map own_events (nodes instance).
Proof.
  induction instance as [t a subs fm IH] using Instance_tree_ind.
  rewrite save_unfold, in_order_gather, own_events_step.
  cbn [nodes sub_instances]. rewrite flat_map_app. cbn [flat_map].
  rewrite app_nil_r. f_equal.
  induction IH as [|[name sub] subs Hsub _ IHsubs]; [reflexivity|].
  cbn [map snd concat] in *. now rewrite flat_map_app, Hsub, IHsubs.
Qed.

(** X9: every run of a save holds, in some order, exactly one event for
    each instance of the tree that has modified fields (its upsert keyed by
    its [id], or the [AttributeError] of an instance without [id]) once for
    each reference that leads to it, and no event for an instance without
    modified fields. *)
Theorem run_has_one_event_per_modified_instance (instance : Instance)
    (session : Session) (events : list Event) :
  schedule (_save instance session) events ->
  events ≡ₚ flat_map own_events (nodes instance) /\
  length events =
    length (filter (fun node => __fields_modified__ node ≠ ∅) (nodes instance)).
Proof.
  intros Hrun. apply schedule_Permutation in Hrun.
  rewrite in_order_save in Hrun. split; [exact Hrun|].
  rewrite Hrun. clear Hrun.
  induction (nodes instance) as [|node rest IH]; [reflexivity|].
  cbn [flat_map]. rewrite length_app, IH, filter_cons.
  unfold own_events.
  destruct (decide (__fields_modified__ node = ∅)) as [Hclean|Hmod].
  - destruct (decide (__fields_modified__ node ≠ ∅)); [contradiction|reflexivity].
  - destruct (decide (__fields_modified__ node ≠ ∅)); [|contradiction].
    now destruct (getattr node "id").
Qed.

Lemma no_staged_after_start (s : Session) (entries : list (Session * UpdateCall)) :
  filter (fun sc => fst sc = s) (filter (fun sc => fst sc ≠ s) entries) = [].
Proof.
  induction entries as [|sc entries IH]; [reflexivity|].
  rewrite (filter_cons (fun sc => fst sc ≠ s)).
  destruct (decide (fst sc ≠ s)) as [Hne|_]; [|exact IH].
  rewrite filter_cons. destruct (decide (fst sc = s)); [contradiction|exact IH].
Qed.

Lemma clear_clean_instance (instance : Instance) :
  __fields_modified__ instance = ∅ ->
  clear_fields_modified instance = instance.
Proof. destruct instance as [t a subs fm]. cbn. now intros ->. Qed.

(** X10: saving a tree of instances none of which has a modified field
    writes nothing: whatever the server and the event loop, [save] opens its
    session, leaves what is persisted as it was, and returns the instance
    unchanged. *)
Theorem clean_save_writes_nothing (st : Store) (instance : Instance) :
  faithful _ ->
  Forall (fun node => __fields_modified__ node = ∅) (nodes instance) ->
  exists st' : Store,
    save st instance = (st', Ok instance) /\
    persisted st' = persisted st /\
    sessions_started st' = S (sessions_started st).
Proof.
  intros Hloop Hclean.
  assert (Hnone : run_order (_save instance (sessions_started st)) = []).
  { apply Permutation_nil_r.
    rewrite (schedule_Permutation _ _ (Hloop _)), in_order_save.
    clear -Hclean. induction Hclean as [|node rest Hnode _ IH]; [reflexivity|].
    cbn [flat_map]. unfold own_events at 1.
    destruct (decide _); [exact IH|contradiction]. }
  unfold save. cbn [start_session]. rewrite Hnone. cbn [play].
  rewrite clear_clean_instance.
  - eexists. split; [reflexivity|].
    unfold commit_transaction, start_transaction.
    cbn [persisted staged sessions_started].
    rewrite no_staged_after_start. cbn [map]. now rewrite app_nil_r.
  - rewrite Forall_forall in Hclean. apply Hclean.
    destruct instance as [t a subs fm]. cbn [nodes].
    apply elem_of_app. right. left.
Qed.

(** A run that was carried out to its end held no exception. *)
Lemma play_ok_no_raise (events : list Event) :
  forall st st' u,
    play st events = (st', Ok u) ->
    forall e, EvRaise e ∉ events.
Proof.
  induction events as [|ev events IH]; intros st st' u Hplay e Hin.
  - now apply elem_of_nil in Hin.
  - destruct ev as [call|e']; cbn [play] in Hplay; [|discriminate].
    destruct (update_one st call) as [st1 [[]|e1]]; [|discriminate].
    apply elem_of_cons in Hin as [Heq|Hin]; [discriminate|].
    exact (IH _ _ _ Hplay e Hin).
Qed.

(** X11: a [save] that returns has opened one session and persisted every
    write of its run, in the order of the run, on top of what was persisted
    before: one upsert for each instance of the tree with modified fields.
    It returns only if every such instance has an [id] attribute, and what
    it returns is its argument with an empty modified-fields set. *)
Theorem successful_save_persists_every_write (st st' : Store)
    (instance saved : Instance) :
  faithful _ ->
  save st instance = (st', Ok saved) ->
  saved = clear_fields_modified instance /\
  sessions_started st' = S (sessions_started st) /\
  Forall (fun node =>
            __fields_modified__ node ≠ ∅ -> is_Some (getattr node "id"))
         (nodes instance) /\
  exists written : list UpdateCall,
    persisted st' = persisted st ++ written /\
    written = writes_of (run_order (_save instance (sessions_started st))) /\
    written ≡ₚ writes_of (flat_map own_events (nodes instance)).
Proof.
  intros Hloop. unfold save. cbn [start_session].
  pose proof (Hloop (_save instance (sessions_started st))) as Hrun.
  destruct (play _ _) as [st1 [[]|e]] eqn:Hplay; [|destruct e; discriminate].
  intros [= <- <-]. split; [reflexivity|].
  pose proof (play_ok_no_raise _ _ _ _ Hplay) as Hnoraise.
  apply play_without_session in Hplay;
    [|intros call; apply (save_run_without_session instance _ _ Hrun)].
  destruct Hplay as (Hst & Hss & accepted & Hp & _ & Hok).
  specialize (Hok eq_refl). subst accepted.
  cbn [start_transaction persisted staged sessions_started] in Hst, Hss, Hp.
  unfold commit_transaction. cbn [persisted sessions_started].
  split; [now rewrite Hss|].
  apply schedule_Permutation in Hrun. rewrite in_order_save in Hrun.
  split.
  - apply Forall_forall. intros node Hnode Hmod.
    destruct (getattr node "id") as [id|] eqn:Hid; [now exists id|].
    exfalso. apply (Hnoraise (AttributeError "id")).
    rewrite Hrun. apply list_elem_of_In, in_flat_map. exists node.
    split; [now apply list_elem_of_In|].
    unfold own_events. destruct (decide _); [contradiction|].
    rewrite Hid. now left.
  - eexists. split; [|split; [reflexivity|]].
    + rewrite Hst, no_staged_after_start, Hp. cbn [map]. now rewrite app_nil_r.
    + unfold writes_of. now rewrite Hrun.
Qed.


End SaverMore.

(** The edition, its author and its publisher: three modified instances,
    three events. *)
Lemma run_has_one_event_per_modified_instance_witness :
  length (in_order (@_save flat_layer an_edition 0%nat)) = 3%nat.
Proof.
  rewrite (proj2 (@run_has_one_event_per_modified_instance flat_layer an_edition 0%nat
                    _ (in_order_schedule _))).
  reflexivity.
Defined.

(** The clean book and its clean author. *)
Lemma clean_save_writes_nothing_witness :
  exists st' : Store,
    @save flat_layer book_write_fails in_order_loop empty_store a_clean_book =
      (st', Ok a_clean_book) /\
    persisted st' = [] /\
    sessions_started st' = 1%nat.
Proof.
  apply (@clean_save_writes_nothing flat_layer book_write_fails in_order_loop
           empty_store a_clean_book).
  - exact in_order_loop_faithful.
  - repeat constructor.
Defined.

(** The book and its author, saved on a server that accepts every write. *)
Lemma successful_save_persists_every_write_witness :
  exists written : list UpdateCall,
    persisted (fst (@save flat_layer accepting_driver in_order_loop empty_store a_book)) =
      [] ++ written /\
    written = writes_of (in_order (@_save flat_layer a_book 0%nat)) /\
    written ≡ₚ writes_of (flat_map (@own_events flat_layer) (nodes a_book)).
Proof.
  apply (@successful_save_persists_every_write flat_layer accepting_driver
           in_order_loop empty_store
           (fst (@save flat_layer accepting_driver in_order_loop empty_store a_book))
           a_book (clear_fields_modified a_book)).
  - exact in_order_loop_faithful.
  - reflexivity.
Defined.


(** ** What [find_one] returns *)

Section FindOneMore.
Context `{ModelLayer} `{Driver}.

Lemma parse_all_Raise (self : AIOCursor.t) (raw_docs : list Value) :
  forall instances e,
    AIOCursor.parse_all self raw_docs instances = Raise e ->
    exists raw_doc,
      raw_doc ∈ raw_docs /\ AIOCursor._parse_document self raw_doc = Raise e.
Proof.
  induction raw_docs as [|raw_doc rest IH]; intros instances e; cbn [AIOCursor.parse_all].
  - discriminate.
  - destruct (AIOCursor._parse_document self raw_doc) as [instance|e'] eqn:Hparse.
    + intros Hrest. destruct (IH _ _ Hrest) as (bad & Hin & Hbad).
      exists bad. split; [now right|exact Hbad].
    + intros [= <-]. exists raw_doc. split; [left|exact Hparse].
Qed.

(** X13: what [find_one] gives on a model class, in terms of the documents
    the server streams back for the pipeline with [$limit] 1.  It returns
    the absence marker exactly when there is no document; an instance it
    returns is the parse of the first document, with an empty modified-fields
    set; and it raises only what the parse of one of the documents raises,
    any of them and not only the first. *)
Theorem find_one_parses_first_document (m : Model) (query : Value) :
  let documents :=
    aggregate (__collection__ m)
              (VDict [("$match", query)] :: VDict [("$limit", VInt 1)]
               :: _cascade_find_pipeline m "") in
  (find_one (ModelClass m) query = Ok None <-> documents = []) /\
  (forall instance,
      find_one (ModelClass m) query = Ok (Some instance) ->
      __fields_modified__ instance = ∅ /\
      exists raw_doc parsed,
        head documents = Some raw_doc /\
        parse_doc m raw_doc = Ok parsed /\
        instance = clear_fields_modified parsed) /\
  (forall e,
      find_one (ModelClass m) query = Raise e ->
      exists raw_doc, raw_doc ∈ documents /\ parse_doc m raw_doc = Raise e).
Proof.
  intros documents. subst documents. unfold find_one.
  cbn [lenient_issubclass_Model negb find Z.ltb Z.compare app].
  unfold AIOCursor.__await__, collection_aggregate, _get_collection.
  cbn [AIOCursor._results to_list AIOCursor._motor_cursor AIOCursor._model
       mc_pending mc_fetched mc_collection mc_pipeline].
  set (documents := aggregate _ _).
  set (self := AIOCursor.Make m _ None).
  destruct (AIOCursor.parse_all self documents []) as [results|e] eqn:Hparse; cbn [snd].
  - apply parse_all_Forall2 in Hparse as (parsed & -> & Hall). cbn [app].
    split; [|split].
    + destruct Hall as [|raw_doc instance docs others Hone Hrest]; cbn.
      * split; reflexivity.
      * split; discriminate.
    + intros instance.
      destruct Hall as [|raw_doc first docs others Hone Hrest]; cbn; [discriminate|].
      intros [= <-].
      unfold AIOCursor._parse_document in Hone. cbn [AIOCursor._model self] in Hone.
      destruct (parse_doc m raw_doc) as [parsed|e] eqn:Hdoc; [|discriminate].
      injection Hone as <-. split; [reflexivity|]. now exists raw_doc, parsed.
    + intros e. destruct parsed; discriminate.
  - split; [|split].
    + split; [discriminate|]. intros Hnone. rewrite Hnone in Hparse. discriminate.
    + discriminate.
    + intros e' [= <-].
      destruct (parse_all_Raise _ _ _ _ Hparse) as (raw_doc & Hin & Hbad).
      exists raw_doc. split; [exact Hin|].
      unfold AIOCursor._parse_document in Hbad. cbn [AIOCursor._model self] in Hbad.
      destruct (parse_doc m raw_doc) as [parsed|e'] eqn:Hdoc; [discriminate|].
      exact Hbad.
Qed.

End FindOneMore.

(** ** [delete] and [count] *)

Section DeleteCount.
Context `{ModelLayer} `{QueryLanguage}.

Lemma filter_out_then_in {A : Type} (f : A -> bool) (l : list A) :
  List.filter f (List.filter (fun x => negb (f x)) l) = [].
Proof.
  induction l as [|x l IH]; [reflexivity|].
  cbn [List.filter]. destruct (f x) eqn:Hx; cbn [negb List.filter]; [exact IH|].
  now rewrite Hx.
Qed.

Lemma filter_out_twice {A : Type} (f : A -> bool) (l : list A) :
  List.filter (fun x => negb (f x)) (List.filter (fun x => negb (f x)) l) =
  List.filter (fun x => negb (f x)) l.
Proof.
  induction l as [|x l IH]; [reflexivity|].
  cbn [List.filter]. destruct (f x) eqn:Hx; cbn [negb List.filter]; [exact IH|].
  rewrite Hx. cbn [negb]. now rewrite IH.
Qed.

(** X14: [delete] removes what [count] counts.  On an instance that has its
    primary-key attribute, [delete] returns the number of documents of the
    instance's collection that [count] finds under [{"_id": pk}]; after it,
    [count] finds none, and a second [delete] removes nothing and leaves
    the documents as they are. *)
Theorem delete_removes_what_count_counts (db : gmap string (list Value))
    (instance : Instance) (pk_value : Value) :
  getattr instance (__primary_key__ (type_of instance)) = Some pk_value ->
  exists (db' : gmap string (list Value)) (n : Z),
    delete db instance = (db', Ok n) /\
    0 <= n /\
    count db (ModelClass (type_of instance)) (VDict [("_id", pk_value)]) = Ok n /\
    count db' (ModelClass (type_of instance)) (VDict [("_id", pk_value)]) = Ok 0 /\
    delete db' instance = (db', Ok 0).
Proof.
  intros Hpk. unfold delete, count, count_documents, delete_many. rewrite Hpk.
  eexists. eexists. split; [reflexivity|].
  split; [lia|]. split; [reflexivity|].
  rewrite lookup_alter_eq.
  assert (Hnone :
            List.filter (matches (VDict [("_id", pk_value)]))
              (default []
                 (List.filter (fun document =>
                                 negb (matches (VDict [("_id", pk_value)]) document))
                    <$> db !! __collection__ (type_of instance))) = []).
  { destruct (db !! __collection__ (type_of instance)) as [documents|]; cbn;
      [apply filter_out_then_in|reflexivity]. }
  rewrite Hnone. cbn [length Z.of_nat]. split; [reflexivity|].
  f_equal. apply map_eq. intros collection.
  destruct (decide (collection = __collection__ (type_of instance))) as [->|Hne].
  - rewrite !lookup_alter_eq.
    destruct (db !! __collection__ (type_of instance)) as [documents|]; cbn;
      [|reflexivity].
    now rewrite filter_out_twice.
  - now rewrite !lookup_alter_ne by congruence.
Qed.

(** X15: [delete] does not cascade.  It touches no collection but the one
    of the instance it is given: the documents of every other collection,
    those of the models the instance refers to among them, are what they
    were, and [count] on such a model gives what it gave. *)
Theorem delete_leaves_other_collections (db : gmap string (list Value))
    (instance : Instance) (m : Model) (query : Value) :
  __collection__ m <> __collection__ (type_of instance) ->
  fst (delete db instance) !! __collection__ m = db !! __collection__ m /\
  count (fst (delete db instance)) (ModelClass m) query =
    count db (ModelClass m) query.
Proof.
  intros Hne.
  assert (Hsame : fst (delete db instance) !! __collection__ m =
                  db !! __collection__ m).
  { unfold delete, delete_many.
    destruct (getattr instance _); cbn [fst]; [|reflexivity].
    now rewrite lookup_alter_ne by congruence. }
  split; [exact Hsame|].
  unfold count, count_documents. now rewrite Hsame.
Qed.

(** X16: [delete] and [_save] do not key alike.  For an instance with
    modified fields, [_save] upserts in the instance's collection under
    [{"_id": instance.id}], and [delete] removes from the same collection
    under [{"_id": pk}], the value of the declared primary-key attribute:
    the two filters are the same exactly when [instance.id] is that value,
    as it is when the primary key is named [id]. *)
Theorem delete_and_save_keys (db : gmap string (list Value)) (instance : Instance)
    (session : Session) (id pk_value : Value) :
  __fields_modified__ instance ≠ ∅ ->
  getattr instance "id" = Some id ->
  getattr instance (__primary_key__ (type_of instance)) = Some pk_value ->
  exists call : UpdateCall,
    own_step (_save instance session) = StepUpdateOne call /\
    uc_filter call = VDict [("_id", id)] /\
    delete db instance =
      (fst (delete_many db (uc_collection call) (VDict [("_id", pk_value)])),
       Ok (snd (delete_many db (uc_collection call) (VDict [("_id", pk_value)])))) /\
    (uc_filter call = VDict [("_id", pk_value)] <-> id = pk_value) /\
    (__primary_key__ (type_of instance) = "id" ->
     uc_filter call = VDict [("_id", pk_value)]).
Proof.
  intros Hmod Hid Hpk. exists (upsert_of instance id).
  rewrite save_own_step, Hid.
  destruct (decide _); [contradiction|].
  split; [reflexivity|]. split; [reflexivity|].
  split; [unfold delete; now rewrite Hpk|].
  cbn [upsert_of uc_filter]. split.
  - split; [now intros [= ->]|now intros ->].
  - intros Hname. rewrite Hname, Hid in Hpk. now injection Hpk as ->.
Qed.

End DeleteCount.

(** The authors served for a [find_one] on [Author]: the first of them. *)
Lemma find_one_parses_first_document_witness :
  @find_one flat_layer author_server (ModelClass Author) (VDict []) =
  Ok (Some (MkInstance Author [("id", VInt 1); ("name", VStr "A")] [] ∅)) /\
  __fields_modified__ (MkInstance Author [("id", VInt 1); ("name", VStr "A")] [] ∅) = ∅.
Proof.
  split; [reflexivity|].
  apply (proj1 (proj2 (@find_one_parses_first_document flat_layer author_server
                         Author (VDict [])))).
  reflexivity.
Defined.

(** The library: the book of key 1 deleted. *)
Lemma delete_removes_what_count_counts_witness :
  exists db' : gmap string (list Value),
    @delete equality_queries library a_book = (db', Ok 1) /\
    @count equality_queries library (ModelClass Book) (VDict [("_id", VInt 1)]) = Ok 1 /\
    @count equality_queries db' (ModelClass Book) (VDict [("_id", VInt 1)]) = Ok 0 /\
    @delete equality_queries db' a_book = (db', Ok 0).
Proof.
  destruct (@delete_removes_what_count_counts equality_queries library a_book (VInt 1)
              eq_refl) as (db' & n & Hdel & Hpos & Hcount & Hafter & Hagain).
  exists db'.
  assert (Hn : n = 1).
  { unfold count in Hcount. injection Hcount as <-. vm_compute. reflexivity. }
  subst n. now repeat split.
Defined.

(** The library: deleting the book leaves the author it refers to. *)
Lemma delete_leaves_other_collections_witness :
  fst (@delete equality_queries library a_book) !! "author" = library !! "author" /\
  @count equality_queries (fst (@delete equality_queries library a_book))
     (ModelClass Author) (VDict []) =
  @count equality_queries library (ModelClass Author) (VDict []).
Proof.
  apply (@delete_leaves_other_collections equality_queries library a_book Author (VDict [])).
  discriminate.
Defined.

(** The catalogued book: saved under its [id] 5, deleted under its [isbn]. *)
Lemma delete_and_save_keys_witness :
  exists call : UpdateCall,
    own_step (@_save flat_layer a_catalogued 0%nat) = StepUpdateOne call /\
    uc_filter call = VDict [("_id", VInt 5)] /\
    @delete equality_queries ∅ a_catalogued =
      (fst (@delete_many equality_queries ∅ (uc_collection call)
              (VDict [("_id", VStr "978-0")])),
       Ok (snd (@delete_many equality_queries ∅ (uc_collection call)
                  (VDict [("_id", VStr "978-0")])))) /\
    (uc_filter call = VDict [("_id", VStr "978-0")] <-> VInt 5 = VStr "978-0") /\
    (__primary_key__ (type_of a_catalogued) = "id" ->
     uc_filter call = VDict [("_id", VStr "978-0")]).
Proof.
  apply (@delete_and_save_keys flat_layer equality_queries ∅ a_catalogued 0%nat).
  - cbn [a_catalogued __fields_modified__]. set_solver.
  - reflexivity.
  - reflexivity.
Defined.
